(** * immich-public-proxy: the share-access gateway

    A shallow embedding of the Express application of
    [src/unnamed/part_000] and [src/app/src/index.ts] (which holds two
    revisions of the same file), and the properties of the password gate,
    the unlock endpoint, the asset-streaming route and the JSON listing. *)

From Stdlib Require Import ZArith Ascii String List Lia Bool.
From stdpp Require Import base option list strings pretty gmap.

Local Open Scope string_scope.
Local Open Scope Z_scope.

(** ** JavaScript values

    The values the handlers see are what [JSON.parse], the cookie session and
    the query-string parser produce: null, booleans, numbers, strings, arrays
    and objects.  [undefined] is an absent [option].  Numbers are integers
    here: the handlers only test a number for truthiness or use it as a
    property key.  An object is its list of own properties in insertion
    order. *)
#[warnings="-register-all"]
Inductive json : Type :=
| JNull
| JBool (b : bool)
| JNum (n : Z)
| JStr (s : string)
| JArr (items : list json)
| JObj (fields : list (string * json)).

(** [v] in a boolean context; [None] is [undefined]. *)
Definition truthy (v : option json) : bool :=
  match v with
  | None | Some JNull => false
  | Some (JBool b) => b
  | Some (JNum n) => negb (n =? 0)
  | Some (JStr s) => negb (String.eqb s "")
  | Some (JArr _) | Some (JObj _) => true
  end.

(** Own property [k] of an object literal; a later duplicate wins. *)
Fixpoint field (k : string) (fields : list (string * json)) : option json :=
  match fields with
  | [] => None
  | (k', v) :: rest =>
      match field k rest with
      | Some v' => Some v'
      | None => if String.eqb k' k then Some v else None
      end
  end.

(** [v?.k] for the property names the gateway reads ([iv], [cr], [expires],
    [password], [key]): none of them exists on a primitive or on an array. *)
Definition prop (v : option json) (k : string) : option json :=
  match v with
  | Some (JObj fields) => field k fields
  | _ => None
  end.

(** ** Strings

    A string is the UTF-8 encoding of the JavaScript string. *)

Fixpoint join (sep : string) (parts : list string) : string :=
  match parts with
  | [] => ""
  | [p] => p
  | p :: rest => p +:+ sep +:+ join sep rest
  end.

Section ToString.
(** [Number.prototype.toString], left open. *)
Variable number_toString : Z -> string.

(** [String(v)], [None] when the conversion throws a [TypeError].  An array
    joins its elements with a comma, null elements giving the empty string.
    An object without a [toString] property of its own is
    ["[object Object]"]; with one, which in a value that came out of
    [JSON.parse] or the query parser is never a function, there is nothing to
    convert it with. *)
Fixpoint js_toString (v : json) : option string :=
  match v with
  | JNull => Some "null"
  | JBool true => Some "true"
  | JBool false => Some "false"
  | JNum n => Some (number_toString n)
  | JStr s => Some s
  | JArr items =>
      join "," <$>
        (fix elements (xs : list json) : option (list string) :=
           match xs with
           | [] => Some []
           | x :: rest =>
               match (match x with JNull => Some "" | _ => js_toString x end) with
               | Some s =>
                   match elements rest with
                   | Some ss => Some (s :: ss)
                   | None => None
                   end
               | None => None
               end
           end) items
  | JObj fields =>
      match field "toString" fields with
      | Some _ => None
      | None => Some "[object Object]"
      end
  end.

Definition js_toString_opt (v : option json) : option string :=
  match v with
  | None => Some "undefined"
  | Some x => js_toString x
  end.
End ToString.

(** ** Numbers

    A number of the listing is a double that holds an integer, an infinity
    or [NaN]; the sign of zero is not kept, nothing the handlers do shows
    it. *)
Inductive number : Type :=
| Finite (z : Z)
| PosInfinity
| NegInfinity
| NaN.

(** The double nearest to the integer [z], ties to the even mantissa:
    [z] itself below 2^53, an infinity from 2^1024 on. *)
Definition round_double (z : Z) : number :=
  let a := Z.abs z in
  if a <? 2 ^ 53 then Finite z
  else
    let e := Z.log2 a - 52 in
    let q := a / 2 ^ e in
    let r := a mod 2 ^ e in
    let half := 2 ^ (e - 1) in
    let m := if (half <? r) || ((r =? half) && Z.odd q) then q + 1 else q in
    let v := m * 2 ^ e in
    if 2 ^ 1024 <=? v then (if z <? 0 then NegInfinity else PosInfinity)
    else Finite (Z.sgn z * v).

Definition num_neg (a : number) : number :=
  match a with
  | Finite x => Finite (- x)
  | PosInfinity => NegInfinity
  | NegInfinity => PosInfinity
  | NaN => NaN
  end.

(** [a + b] *)
Definition num_add (a b : number) : number :=
  match a, b with
  | NaN, _ | _, NaN => NaN
  | PosInfinity, NegInfinity | NegInfinity, PosInfinity => NaN
  | PosInfinity, _ | _, PosInfinity => PosInfinity
  | NegInfinity, _ | _, NegInfinity => NegInfinity
  | Finite x, Finite y => round_double (x + y)
  end.

(** [a - b] *)
Definition num_sub (a b : number) : number := num_add a (num_neg b).

(** [a * b] *)
Definition num_mul (a b : number) : number :=
  match a, b with
  | NaN, _ | _, NaN => NaN
  | Finite x, Finite y => round_double (x * y)
  | Finite x, PosInfinity | PosInfinity, Finite x =>
      if x =? 0 then NaN else if x <? 0 then NegInfinity else PosInfinity
  | Finite x, NegInfinity | NegInfinity, Finite x =>
      if x =? 0 then NaN else if x <? 0 then PosInfinity else NegInfinity
  | PosInfinity, PosInfinity | NegInfinity, NegInfinity => PosInfinity
  | PosInfinity, NegInfinity | NegInfinity, PosInfinity => NegInfinity
  end.

(** A number as [JSON.stringify] writes it: [null] when it is not finite. *)
Definition number_json (a : number) : json :=
  match a with
  | Finite x => JNum x
  | _ => JNull
  end.

(** ** [parseInt] with no radix *)

Definition is_space (c : ascii) : bool :=
  let n := nat_of_ascii c in
  ((9 <=? n)%nat && (n <=? 13)%nat) || (n =? 32)%nat.

(** The white space of the language that is not ASCII, by its encoding:
    U+00A0, U+1680, U+2000 to U+200A, U+2028, U+2029, U+202F, U+205F, U+3000
    and U+FEFF. *)
Definition wide_space (b1 b2 : nat) : bool := ((b1 =? 194) && (b2 =? 160))%nat.

Definition wider_space (b1 b2 b3 : nat) : bool :=
  (((b1 =? 225) && (b2 =? 154) && (b3 =? 128))
   || ((b1 =? 226) && (b2 =? 128)
       && (((128 <=? b3) && (b3 <=? 138)) || (b3 =? 168) || (b3 =? 169) || (b3 =? 175)))
   || ((b1 =? 226) && (b2 =? 129) && (b3 =? 159))
   || ((b1 =? 227) && (b2 =? 128) && (b3 =? 128))
   || ((b1 =? 239) && (b2 =? 187) && (b3 =? 191)))%nat.

Fixpoint trim_start (s : string) : string :=
  match s with
  | String c rest =>
      if is_space c then trim_start rest
      else
        match rest with
        | String c2 rest2 =>
            if wide_space (nat_of_ascii c) (nat_of_ascii c2) then trim_start rest2
            else
              match rest2 with
              | String c3 rest3 =>
                  if wider_space (nat_of_ascii c) (nat_of_ascii c2) (nat_of_ascii c3)
                  then trim_start rest3
                  else s
              | EmptyString => s
              end
        | EmptyString => s
        end
  | EmptyString => s
  end.

(** Value of [c] as a digit of radix [r], when it is one. *)
Definition digit_value (r : Z) (c : ascii) : option Z :=
  let n := Z.of_nat (nat_of_ascii c) in
  let d :=
    if (48 <=? n) && (n <=? 57) then Some (n - 48)
    else if (97 <=? n) && (n <=? 122) then Some (n - 87)
    else if (65 <=? n) && (n <=? 90) then Some (n - 55)
    else None in
  match d with
  | Some v => if v <? r then Some v else None
  | None => None
  end.

(** The longest prefix of radix-[r] digits, as the number it denotes so far
    ([acc]); [None] while no digit has been read. *)
Fixpoint digits (r : Z) (acc : option Z) (s : string) : option Z :=
  match s with
  | String c rest =>
      match digit_value r c with
      | Some d => digits r (Some (match acc with Some a => a * r + d | None => d end)) rest
      | None => acc
      end
  | EmptyString => acc
  end.

(** [parseInt(s)]: the double nearest to the integer the digits denote,
    [NaN] when there is no digit. *)
Definition parseInt (s : string) : number :=
  let s1 := trim_start s in
  let '(sign, s2) :=
    match s1 with
    | String "-" rest => (-1, rest)
    | String "+" rest => (1, rest)
    | _ => (1, s1)
    end in
  let '(radix, s3) :=
    match s2 with
    | String "0" (String "x" rest) => (16, rest)
    | String "0" (String "X" rest) => (16, rest)
    | _ => (10, s2)
    end in
  match digits radix None s3 with
  | Some n => round_double (sign * n)
  | None => NaN
  end.

(** [n || d]: [NaN] and zero are falsy. *)
Definition or_default (n : number) (d : Z) : number :=
  match n with
  | NaN => Finite d
  | Finite v => if v =? 0 then Finite d else n
  | _ => n
  end.

(** ** [Array.prototype.slice] *)

Definition relative_index (len i : Z) : Z :=
  if i <? 0 then Z.max (len + i) 0 else Z.min i len.

(** [l.slice(start, stop)] on integer bounds. *)
Definition js_slice {A} (l : list A) (start stop : Z) : list A :=
  let len := Z.of_nat (length l) in
  let k := relative_index len start in
  let final := relative_index len stop in
  take (Z.to_nat (final - k)) (drop (Z.to_nat k) l).

(** A bound of [slice] as an index into a list of length [len]: [NaN] counts
    as zero, an infinity as the nearer end. *)
Definition slice_bound (len : Z) (n : number) : Z :=
  match n with
  | NaN | NegInfinity => 0
  | PosInfinity => len
  | Finite i => relative_index len i
  end.

(** [l.slice(start, stop)] *)
Definition slice {A} (l : list A) (start stop : number) : list A :=
  let len := Z.of_nat (length l) in
  let k := slice_bound len start in
  let final := slice_bound len stop in
  take (Z.to_nat (final - k)) (drop (Z.to_nat k) l).

(** The elements of [l] whose position [i], counted from zero, has
    [start <= i < stop]: the half-open interval of the listing contract. *)
Fixpoint positions_from {A} (i : Z) (l : list A) (start stop : Z) : list A :=
  match l with
  | [] => []
  | x :: rest =>
      if (start <=? i) && (i <? stop)
      then x :: positions_from (i + 1) rest start stop
      else positions_from (i + 1) rest start stop
  end.

Definition interval {A} (l : list A) (start stop : Z) : list A :=
  positions_from 0 l start stop.

(** ** Data model *)

(** [AssetType] of [./types]. *)
Inductive AssetType : Type := image | video.

(** One asset of a share as the backend returns it; [rest] is what the
    gateway never reads. *)
Module Asset.
Record t : Type := make { id : string; type : AssetType; rest : list (string * json) }.
End Asset.

Record SharedLink : Type := { assets : list Asset.t }.

(** What [immich.getShareByKey] resolves to, when it resolves to anything. *)
Record Share : Type := { link : option SharedLink }.

(** The pair [encrypt] returns and [decrypt] takes. *)
Record EncryptedPair : Type := { iv : string; cr : string }.

Definition pair_json (p : EncryptedPair) : json :=
  JObj [("iv", JStr (iv p)); ("cr", JStr (cr p))].

Inductive Exn : Type := DecodeError | SyntaxError | BackendError | TypeError.

Inductive Promise (A : Type) : Type :=
| Fulfilled (v : A)
| Rejects (e : Exn).
Arguments Fulfilled {A} v.
Arguments Rejects {A} e.

(** The request object of Express, with the fields the routes read or write.
    [params r !!! k] reads a parameter that the pattern of the route binds.
    [session] is the cookie-session store as a plain map from property name to
    stored value; [password] is the property [decodeCookie] adds. *)
Record Request : Type := {
  params : gmap string string;
  query : gmap string json;
  body : list (string * json);
  range : option string;
  protocol : string;
  host : option string;
  session : option (gmap string json);
  password : option json
}.

(** What a handler does to the outside, in order.  Writing to the log or the
    console and the CORS headers of the first middleware are left out: they
    write no response and decide nothing. *)
Inductive Effect : Type :=
| AddResponseHeaders
| GetShareByKey (key : string) (password : option json)
| GetGalleryAssetsByShareKey (key : string)
| RespondToInvalidRequest (code : Z)
| Send (status : Z) (body : string)
| SendJson (status : Z) (payload : json)
| AssetBuffer (key range : string) (asset : Asset.t) (size : option string).

(** The backend as the gateway reaches it through [./immich]. *)
Record Backend : Type := {
  getShareByKey : string -> option json -> Promise (option Share);
  getGalleryAssetsByShareKey : string -> Promise (option json)
}.

Record World : Type := {
  req : Request;
  clock : Z;
  immich : Backend;
  trace : list Effect
}.

Definition with_req (r : Request) (w : World) : World :=
  {| req := r; clock := clock w; immich := immich w; trace := trace w |}.

Definition with_password (p : option json) (r : Request) : Request :=
  {| params := params r; query := query r; body := body r; range := range r;
     protocol := protocol r; host := host r; session := session r; password := p |}.

Definition with_session (s : gmap string json) (r : Request) : Request :=
  {| params := params r; query := query r; body := body r; range := range r;
     protocol := protocol r; host := host r; session := Some s;
     password := password r |}.

Definition with_backend (b : Backend) (w : World) : World :=
  {| req := req w; clock := clock w; immich := b; trace := trace w |}.

Definition with_param (k v : string) (w : World) : World :=
  with_req {| params := <[k := v]> (params (req w)); query := query (req w);
              body := body (req w); range := range (req w);
              protocol := protocol (req w); host := host (req w);
              session := session (req w); password := password (req w) |} w.

Definition with_type (t : AssetType) (a : Asset.t) : Asset.t :=
  Asset.make (Asset.id a) t (Asset.rest a).

(** ** Handlers as state transformers that may throw *)

Inductive Outcome (A : Type) : Type :=
| Done (a : A) (w : World)
| Thrown (e : Exn) (w : World).
Arguments Done {A} a w.
Arguments Thrown {A} e w.

Definition M (A : Type) : Type := World -> Outcome A.

#[global] Instance M_ret : MRet M := fun A a w => Done a w.

#[global] Instance M_bind : MBind M := fun A B f m w =>
  match m w with
  | Done a w' => f a w'
  | Thrown e w' => Thrown e w'
  end.

Definition throw {A} (e : Exn) : M A := fun w => Thrown e w.

(** [try { body } catch (e) { handler }] *)
Definition try_catch {A} (body : M A) (handler : Exn -> M A) : M A := fun w =>
  match body w with
  | Done a w' => Done a w'
  | Thrown e w' => handler e w'
  end.

Definition get_req : M Request := fun w => Done (req w) w.

Definition now : M Z := fun w => Done (clock w) w.

Definition set_req (r : Request) : M unit := fun w => Done tt (with_req r w).

Definition emit (e : Effect) : M unit := fun w =>
  Done tt {| req := req w; clock := clock w; immich := immich w; trace := trace w ++ [e] |}.

Definition backend : M Backend := fun w => Done (immich w) w.

(** [await p] *)
Definition await {A} (p : Promise A) : M A :=
  match p with
  | Fulfilled v => mret v
  | Rejects e => throw e
  end.

(** A call that returns a value or throws. *)
Definition attempt {A} (e : Exn) (r : option A) : M A :=
  match r with
  | Some v => mret v
  | None => throw e
  end.

(** [await immich.getShareByKey(key, password)] *)
Definition immich_getShareByKey (key : string) (pw : option json) : M (option Share) :=
  emit (GetShareByKey key pw);;
  b ← backend;
  await (getShareByKey b key pw).

(** [await getGalleryAssetsByShareKey(key)] *)
Definition immich_getGalleryAssetsByShareKey (key : string) : M (option json) :=
  emit (GetGalleryAssetsByShareKey key);;
  b ← backend;
  await (getGalleryAssetsByShareKey b key).

Definition world_of {A} (o : Outcome A) : World :=
  match o with
  | Done _ w => w
  | Thrown _ w => w
  end.

(** ** Collaborators

    The functions the application imports and this repository's sources do
    not define: the session cipher of [./encrypt], [toString] of
    [./functions], the validators of [./immich], the values of [ImageSize] of
    [./types], and of the platform [JSON], [dayjs] and number printing.
    A function that can throw returns [None] when it does.  [dayjs] gives the
    instant its argument denotes in milliseconds, [None] for an invalid
    date.

    The session object is an instance of the [Session] class of
    cookie-session, whose accessors and inherited properties are properties
    of [req.session] that no unlock has put there.  [Session_assign k] is
    what [req.session[k] = v] does, in strict mode, for the property name
    [k]; [Session_in k] is whether [k in new Session(ctx)] holds, in which
    case a stored property of that name is left out when the session is
    read back from the cookie. *)
Inductive Assignment : Type :=
| Assigns  (* an own property is created or overwritten *)
| Skips    (* the own properties stay as they are *)
| Refuses. (* a TypeError is thrown *)

Class Collaborators : Type := {
  decrypt : EncryptedPair -> option string;
  encrypt : string -> EncryptedPair;
  toString : option json -> string;
  isKey : string -> bool;
  isId : string -> bool;
  ImageSize : list string;
  JSON_parse : string -> option json;
  JSON_stringify : json -> string;
  dayjs : option json -> option Z;
  dayjs_format : Z -> string;
  number_toString : Z -> string;
  Session_assign : string -> Assignment;
  Session_in : string -> bool
}.

(** The store as the next request finds it: what cookie-session reads back
    from the cookie, leaving out every name the session object has of its
    own accord. *)
Definition reload `{Collaborators} (store : gmap string json) : gmap string json :=
  filter (fun kv => Session_in kv.1 = false) store.

(** ** The password gate and the unlock endpoint

    [decodeCookie] and the [/share/unlock] handler read the same in
    [part_000] and in both revisions of [index.ts]. *)
Section Gate.
Context `{Collaborators}.

(** [dayjs(e) > dayjs()] at instant [t]; an invalid date compares false. *)
Definition later_than (e : option json) (t : Z) : bool :=
  match dayjs e with
  | Some x => t <? x
  | None => false
  end.

Definition decodeCookie (next : M unit) : M unit :=
  rq ← get_req;
  let shareKey := params rq !! "key" in
  let session := s ← session rq; s !! default "undefined" shareKey in
  (if truthy (JStr <$> shareKey) && truthy (prop session "iv") && truthy (prop session "cr")
   then
     try_catch
       (plain ← attempt DecodeError
                  (decrypt {| iv := toString (prop session "iv");
                              cr := toString (prop session "cr") |});
        payload ← attempt SyntaxError (JSON_parse plain);
        t ← now;
        if truthy (prop (Some payload) "expires")
           && later_than (prop (Some payload) "expires") t
        then set_req (with_password (prop (Some payload) "password") rq)
        else mret tt)
       (fun _ => mret tt)
   else mret tt);;
  next.

(** [{ password: p, expires: e }] as [JSON.stringify] sees it: a property
    whose value is [undefined] is left out. *)
Definition credential (p : option json) (e : string) : json :=
  JObj (match p with Some v => [("password", v)] | None => [] end
        ++ [("expires", JStr e)]).

(** [dayjs().add(1, 'hour')] *)
Definition add_hour (t : Z) : Z := t + 3600000.

(** [store[k] = v] on the session object *)
Definition assign (store : gmap string json) (k : string) (v : json)
    : M (gmap string json) :=
  match Session_assign k with
  | Assigns => mret (<[k := v]> store)
  | Skips => mret store
  | Refuses => throw TypeError
  end.

Definition unlock : M unit :=
  rq ← get_req;
  (match session rq with
   | Some store =>
       if truthy (field "key" (body rq)) then
         t ← now;
         let pair := encrypt (JSON_stringify
                       (credential (field "password" (body rq))
                                   (dayjs_format (add_hour t)))) in
         k ← attempt TypeError (js_toString_opt number_toString (field "key" (body rq)));
         store' ← assign store k (pair_json pair);
         set_req (with_session store' rq)
       else mret tt
   | None => mret tt
   end);;
  emit (Send 200 "").

(** [req.params.size && !Object.values(ImageSize).includes(req.params.size)] *)
Definition bad_size (size : option string) : bool :=
  truthy (JStr <$> size)
  && negb (existsb (String.eqb (default "" size)) ImageSize).
End Gate.

(** ** [src/unnamed/part_000] *)
Module Part000.
Section Routes.
Context `{Collaborators}.

(** [GET /share/:type(photo|video)/:key/:id/:size?], after [decodeCookie]. *)
Definition asset_route : M unit :=
  emit AddResponseHeaders;;
  rq ← get_req;
  if negb (isKey (params rq !!! "key")) || negb (isId (params rq !!! "id")) then
    emit (RespondToInvalidRequest 404)
  else if bad_size (params rq !! "size") then
    emit (RespondToInvalidRequest 404)
  else
    share ← immich_getShareByKey (params rq !!! "key") (password rq);
    let sharedLink := s ← share; link s in
    match sharedLink with
    | Some l =>
        if negb (length (assets l) =? 0)%nat then
          match List.find (fun x => String.eqb (Asset.id x) (params rq !!! "id")) (assets l) with
          | Some asset =>
              emit (AssetBuffer (params rq !!! "key") (default "" (range rq))
                      (with_type (if String.eqb (params rq !!! "type") "video"
                                  then video else image) asset)
                      (params rq !! "size"))
          | None => mret tt
          end
        else emit (RespondToInvalidRequest 404)
    | None => emit (RespondToInvalidRequest 404)
    end.

(** The route with its middleware. *)
Definition share_asset : M unit := decodeCookie asset_route.

(** [GET /share/:id/api] *)
Definition api : M unit :=
  rq ← get_req;
  try_catch
    (media ← immich_getGalleryAssetsByShareKey (params rq !!! "id");
     emit (SendJson 200
             (JObj (match media with Some m => [("media", m)] | None => [] end))))
    (fun _ => emit (SendJson 404 (JObj [("error", JStr "Invalid or expired share key")]))).
End Routes.
End Part000.

(** ** [src/app/src/index.ts]

    The file holds two revisions.  Their asset-streaming handlers differ in
    console output only, which is not modelled; their listing handlers
    differ and are [api_first] and [api_second]. *)
Module Index.
Section Routes.
Context `{Collaborators}.

(** [GET /share/:type(photo|video)/:key/:id/:size?], after [decodeCookie]. *)
Definition asset_route : M unit :=
  emit AddResponseHeaders;;
  rq ← get_req;
  if negb (isKey (params rq !!! "key")) || negb (isId (params rq !!! "id")) then
    emit (RespondToInvalidRequest 404)
  else if bad_size (params rq !! "size") then
    emit (RespondToInvalidRequest 404)
  else
    share ← immich_getShareByKey (params rq !!! "key") (password rq);
    let sharedLink := s ← share; link s in
    match sharedLink with
    | Some l =>
        if negb (length (assets l) =? 0)%nat then
          match List.find (fun x => String.eqb (Asset.id x) (params rq !!! "id")) (assets l) with
          | Some asset =>
              emit (AssetBuffer (params rq !!! "key") (default "" (range rq))
                      (with_type (if String.eqb (params rq !!! "type") "video"
                                  then video else image) asset)
                      (params rq !! "size"))
          | None => emit (RespondToInvalidRequest 404)
          end
        else emit (RespondToInvalidRequest 404)
    | None => emit (RespondToInvalidRequest 404)
    end.

(** The route with its middleware. *)
Definition share_asset : M unit := decodeCookie asset_route.

Definition error_envelope : json :=
  JObj [("error", JStr "Invalid or expired share key")].

(** [GET /share/:id/api], first revision: every asset, addressed through
    the protocol and host of the request. *)
Definition api_first : M unit :=
  try_catch
    (rq ← get_req;
     let shareKey := params rq !!! "id" in
     share ← immich_getShareByKey shareKey (Some (JStr ""));
     match s ← share; link s with
     | None => emit (SendJson 404 error_envelope)
     | Some l =>
         if (length (assets l) =? 0)%nat then emit (SendJson 404 error_envelope)
         else
           let origin := protocol rq +:+ "://" +:+ default "undefined" (host rq) in
           let media := List.map (fun asset =>
             JObj [("id", JStr (Asset.id asset));
                   ("thumbUrl", JStr (origin +:+ "/share/photo/" +:+ shareKey +:+ "/"
                                      +:+ Asset.id asset +:+ "/thumb"));
                   ("originalUrl", JStr (origin +:+ "/share/photo/" +:+ shareKey +:+ "/"
                                         +:+ Asset.id asset))]) (assets l) in
           emit (SendJson 200 (JObj [("media", JArr media)]))
     end)
    (fun _ => emit (SendJson 404 error_envelope)).

Definition base : string := "https://i.techie.pics".

(** [parseInt(req.query.name as string) || d]; [None] when the value cannot
    be converted to a string and [parseInt] throws. *)
Definition query_int (rq : Request) (name : string) (d : Z) : option number :=
  s ← js_toString_opt number_toString (query rq !! name);
  Some (or_default (parseInt s) d).

(** One element of [media] in the second revision. *)
Definition project (shareKey : string) (asset : Asset.t) : json :=
  JObj [("id", JStr (Asset.id asset));
        ("thumbUrl", JStr (base +:+ "/share/photo/" +:+ shareKey +:+ "/"
                           +:+ Asset.id asset +:+ "/thumbnail"));
        ("previewUrl", JStr (base +:+ "/share/photo/" +:+ shareKey +:+ "/"
                             +:+ Asset.id asset +:+ "/preview"));
        ("originalUrl", JStr (base +:+ "/share/photo/" +:+ shareKey +:+ "/"
                              +:+ Asset.id asset +:+ "/original"))].

(** [GET /share/:id/api], second revision: one page of the assets. *)
Definition api_second : M unit :=
  try_catch
    (rq ← get_req;
     let shareKey := params rq !!! "id" in
     share ← immich_getShareByKey shareKey (Some (JStr ""));
     match s ← share; link s with
     | None => emit (SendJson 404 error_envelope)
     | Some l =>
         if (length (assets l) =? 0)%nat then emit (SendJson 404 error_envelope)
         else
           page ← attempt TypeError (query_int rq "page" 1);
           pageSize ← attempt TypeError (query_int rq "pageSize" 20);
           let start := num_mul (num_sub page (Finite 1)) pageSize in
           let pagedAssets := slice (assets l) start (num_add start pageSize) in
           let media := List.map (project shareKey) pagedAssets in
           emit (SendJson 200
                   (JObj [("media", JArr media); ("page", number_json page);
                          ("pageSize", number_json pageSize);
                          ("total", JNum (Z.of_nat (length (assets l))))]))
     end)
    (fun _ => emit (SendJson 404 error_envelope)).
End Routes.
End Index.

(** ** The routes the three files share

    The liveness probe, the share view and the fallback read the same in
    [part_000] and in both revisions of [index.ts]. *)
Section SharedRoutes.
Context `{Collaborators}.

(** [GET /healthcheck] and [GET /share/healthcheck]; [accessible] is what
    [immich.accessible()] settles to. *)
Definition healthcheck (accessible : Promise bool) : M unit :=
  ok ← await accessible;
  if ok : bool then emit (Send 200 "ok") else emit (Send 503 "").


(** [GET *] *)
Definition fallback : M unit := emit (RespondToInvalidRequest 404).
End SharedRoutes.

(** ** The first middleware and the preflight handler

    They write headers and a bare status, which the handlers above do not:
    [Res] is the response as these two see it. *)
Module Cors.
Record Res : Type := { headers : gmap string string; status : option Z }.

(** [res.header(k, v)], [res.setHeader(k, v)] *)
Definition header (k v : string) (res : Res) : Res :=
  {| headers := <[k := v]> (headers res); status := status res |}.

(** [res.sendStatus(code)] *)
Definition sendStatus (code : Z) (res : Res) : Res :=
  {| headers := headers res; status := Some code |}.

(** [app.use((req, res, next) => ...)]; [code] is what an [OPTIONS] request
    is answered with and [next] the rest of the chain. *)
Definition middleware (code : Z) (method : string) (next : Res -> Res) (res : Res) : Res :=
  let res1 := header "Access-Control-Allow-Origin" "*" res in
  let res2 := header "Access-Control-Allow-Methods" "GET, POST, OPTIONS" res1 in
  let res3 := header "Access-Control-Allow-Headers"
                "Origin, X-Requested-With, Content-Type, Accept" res2 in
  if String.eqb method "OPTIONS" then sendStatus code res3 else next res3.

(** [part_000] answers 200, [index.ts] 204. *)
Definition part000 : string -> (Res -> Res) -> Res -> Res := middleware 200.
Definition index : string -> (Res -> Res) -> Res -> Res := middleware 204.

(** [app.options('/share/:id/api', ...)] of [index.ts] *)
Definition options_api (res : Res) : Res :=
  let res1 := header "Access-Control-Allow-Origin" "*" res in
  let res2 := header "Access-Control-Allow-Methods" "GET, OPTIONS" res1 in
  let res3 := header "Access-Control-Allow-Headers"
                "Origin, X-Requested-With, Content-Type, Accept" res2 in
  sendStatus 200 res3.
End Cors.

(** ** A sample deployment

    Stand-ins for the collaborators, small enough to run the handlers on
    concrete requests: a cipher that keeps the plaintext under the fixed
    vector ["iv"], and a serialisation of a credential as its password, a
    bar, and its expiry. *)
Module Sample.
Fixpoint split_bar (s : string) : option (string * string) :=
  match s with
  | EmptyString => None
  | String c rest =>
      if Ascii.eqb c "|" then Some ("", rest)
      else match split_bar rest with
           | Some (a, b) => Some (String c a, b)
           | None => None
           end
  end.

Definition parse (s : string) : option json :=
  match split_bar s with
  | Some (p, e) => Some (JObj [("password", JStr p); ("expires", JStr e)])
  | None => if String.eqb s "null" then Some JNull else None
  end.

Definition stringify (v : json) : string :=
  match v with
  | JObj [("password", JStr p); ("expires", JStr e)] => p +:+ "|" +:+ e
  | _ => "null"
  end.

(** The [Session] class of cookie-session 2: the accessors of its prototype
    and the context it keeps have no setter, the rest it inherits from
    [Object.prototype]. *)
Definition Session_readonly : list string :=
  ["isChanged"; "isNew"; "length"; "isPopulated"; "_ctx"].

Definition Session_inherited : list string :=
  ["constructor"; "__proto__"; "hasOwnProperty"; "isPrototypeOf";
   "propertyIsEnumerable"; "toLocaleString"; "toString"; "valueOf";
   "__defineGetter__"; "__defineSetter__"; "__lookupGetter__"; "__lookupSetter__"].

#[global] Instance collaborators : Collaborators := {|
  decrypt p := if String.eqb (iv p) "iv" then Some (cr p) else None;
  encrypt s := {| iv := "iv"; cr := s |};
  toString v := match v with Some (JStr s) => s | _ => "" end;
  isKey s := (String.length s =? 3)%nat;
  isId s := (String.length s =? 1)%nat;
  ImageSize := ["thumbnail"; "preview"; "original"];
  JSON_parse := parse;
  JSON_stringify := stringify;
  dayjs v := match v with
             | Some (JStr s) =>
                 match parseInt s with
                 | Finite z => Some z
                 | _ => None
                 end
             | Some (JNum n) => Some n
             | _ => None
             end;
  dayjs_format t := pretty t;
  number_toString n := pretty n;
  Session_assign k :=
    if existsb (String.eqb k) Session_readonly then Refuses
    else if String.eqb k "__proto__" then Skips
    else Assigns;
  Session_in k := existsb (String.eqb k) (Session_readonly ++ Session_inherited)
|}.

Definition asset (i : string) : Asset.t := Asset.make i image [].

(** A backend with the single share ["KEY"], open to any password. *)
Definition backend_of (l : list Asset.t) : Backend := {|
  getShareByKey k _ :=
    Fulfilled (if String.eqb k "KEY" then Some {| link := Some {| assets := l |} |} else None);
  getGalleryAssetsByShareKey k :=
    if String.eqb k "KEY" then Fulfilled (Some (JArr (List.map (fun a => JStr (Asset.id a)) l)))
    else Rejects BackendError
|}.

Definition request (ps : list (string * string)) (qs : list (string * json)) : Request := {|
  params := list_to_map ps; query := list_to_map qs; body := []; range := None;
  protocol := "http"; host := Some "localhost"; session := Some ∅; password := None
|}.

Definition world (l : list Asset.t) (r : Request) : World :=
  {| req := r; clock := 1000; immich := backend_of l; trace := [] |}.

Definition with_store (store : gmap string json) (r : Request) : Request :=
  with_session store r.

(** A caller who unlocked ["KEY"] with the password ["secret"], the
    credential running out at instant 5000. *)
Definition unlocked : World :=
  world [asset "a"]
    (with_session {[ "KEY" := pair_json {| iv := "iv"; cr := "secret|5000" |} ]}
       (request [("type", "photo"); ("key", "KEY"); ("id", "a")] [])).

(** The same caller at a later instant. *)
Definition at_instant (t : Z) (w : World) : World :=
  {| req := req w; clock := t; immich := immich w; trace := trace w |}.

(** A caller whose stored pair was not produced by [encrypt]. *)
Definition tampered : World :=
  world [asset "a"]
    (with_session {[ "KEY" := pair_json {| iv := "vi"; cr := "secret|5000" |} ]}
       (request [("type", "photo"); ("key", "KEY"); ("id", "a")] [])).

(** A caller whose stored pair decrypts to something that is not JSON. *)
Definition garbled : World :=
  world [asset "a"]
    (with_session {[ "KEY" := pair_json {| iv := "iv"; cr := "secret" |} ]}
       (request [("type", "photo"); ("key", "KEY"); ("id", "a")] [])).

(** A POST to [/share/unlock] with the body [{ key, password: "secret" }]. *)
Definition unlock_post (key : json) : World :=
  world []
    {| params := ∅; query := ∅;
       body := [("key", key); ("password", JStr "secret")];
       range := None; protocol := "http"; host := Some "localhost";
       session := Some ∅; password := None |}.

(** [GET /share/photo/KEY/b]: a share that exists, an id it does not hold. *)
Definition unknown_id : World :=
  world [asset "a"] (request [("type", "photo"); ("key", "KEY"); ("id", "b")] []).

(** [GET /share/photo/BAD/b]: a key the backend does not know. *)
Definition unknown_share : World :=
  world [asset "a"] (request [("type", "photo"); ("key", "BAD"); ("id", "b")] []).

(** [GET /share/photo/KEY/a/huge]: a size outside [ImageSize]. *)
Definition odd_size : World :=
  world [asset "a"]
    (request [("type", "photo"); ("key", "KEY"); ("id", "a"); ("size", "huge")] []).

(** [GET /share/photo/KEY/a] *)
Definition known_asset : World :=
  world [asset "a"] (request [("type", "photo"); ("key", "KEY"); ("id", "a")] []).

(** [GET /share/KEY/api?...] over a share of the assets [l]. *)
Definition listing (l : list Asset.t) (qs : list (string * json)) : World :=
  world l (request [("id", "KEY")] qs).

(** A request for the asset ["a"] of ["KEY"] at instant [t], by a caller who
    unlocked the key [k] at instant 1000 and sends the cookie back. *)
Definition revisit (k : string) (t : Z) : World :=
  at_instant t
    (world [asset "a"]
       {| params := list_to_map [("type", "photo"); ("key", "KEY"); ("id", "a")];
          query := ∅; body := []; range := None;
          protocol := "http"; host := Some "localhost";
          session := reload <$> session (req (world_of (unlock (unlock_post (JStr k)))));
          password := None |}).

(** A backend that resolves every key to a share of the one asset ["a"]. *)
Definition open_backend : Backend := {|
  getShareByKey _ _ := Fulfilled (Some {| link := Some {| assets := [asset "a"] |} |});
  getGalleryAssetsByShareKey _ := Fulfilled (Some (JArr [JStr "a"]))
|}.

(** [GET /share/not%20a%20key/api] against that backend. *)
Definition invalid_key_listing : World :=
  with_backend open_backend (world [] (request [("id", "not a key")] [])).

(** Forty-five assets, ["1"] to ["45"]. *)
Definition forty_five : list Asset.t :=
  List.map (fun n => asset (pretty (Z.of_nat n))) (seq 1 45).

(** [GET /share/KEY/api?page=-5] and [?page=-1] over the forty-five. *)
Definition minus_five : World := listing forty_five [("page", JStr "-5")].
Definition minus_one : World := listing forty_five [("page", JStr "-1")].

(** [GET /share/KEY/api?page=N&pageSize=20] over the forty-five. *)
Definition page_of_twenty (n : string) : World :=
  listing forty_five [("page", JStr n); ("pageSize", JStr "20")].

(** [GET /share/KEY/api?page[toString]=1] over the forty-five. *)
Definition page_object : World :=
  listing forty_five [("page", JObj [("toString", JStr "1")])].

(** [GET /share/KEY/api?pageSize=1000...0], four hundred zeros. *)
Definition huge_page_size : World :=
  listing forty_five [("pageSize", JStr (pretty (10 ^ 400)))].

(** [GET /share/KEY/api?page=2&page=9] over the forty-five. *)
Definition page_twice : World :=
  listing forty_five [("page", JArr [JStr "2"; JStr "9"])].

(** The ids of the [media] of a listing response. *)
Definition media_ids (o : Outcome unit) : list (option json) :=
  match last (trace (world_of o)) with
  | Some (SendJson _ payload) =>
      match prop (Some payload) "media" with
      | Some (JArr items) => List.map (fun x => prop (Some x) "id") items
      | _ => []
      end
  | _ => []
  end.
End Sample.

(** ** Vocabulary of the contract *)

Section Contract.
Context `{Collaborators}.

(** The session store of [w] holds, under the share key of the route, a
    pair that decrypts to a JSON object with an [expires] field naming an
    instant after the clock of [w]; [p] is the [password] field of that
    object, if it has one. *)
Inductive valid_credential (w : World) : option json -> Prop :=
| valid_credential_intro k store entry plain fields e x :
    params (req w) !! "key" = Some k ->
    k <> "" ->
    session (req w) = Some store ->
    store !! k = Some entry ->
    truthy (prop (Some entry) "iv") = true ->
    truthy (prop (Some entry) "cr") = true ->
    decrypt {| iv := toString (prop (Some entry) "iv");
               cr := toString (prop (Some entry) "cr") |} = Some plain ->
    JSON_parse plain = Some (JObj fields) ->
    field "expires" fields = Some e ->
    dayjs (Some e) = Some x ->
    clock w < x ->
    valid_credential w (field "password" fields).

(** The three checks of the route, as one condition on the request. *)
Definition malformed (r : Request) : Prop :=
  isKey (params r !!! "key") = false
  \/ isId (params r !!! "id") = false
  \/ exists s, params r !! "size" = Some s /\ s <> "" /\ ~ In s ImageSize.

(** The request passes the three checks. *)
Definition well_formed (r : Request) : Prop :=
  isKey (params r !!! "key") = true
  /\ isId (params r !!! "id") = true
  /\ bad_size (params r !! "size") = false.

(** The backend resolves the key and password of the request to a share
    whose asset list is [l]. *)
Definition resolves_to (w : World) (l : list Asset.t) : Prop :=
  getShareByKey (immich w) (params (req w) !!! "key") (password (req w))
  = Fulfilled (Some {| link := Some {| assets := l |} |}).

Definition find_asset (r : Request) (l : list Asset.t) : option Asset.t :=
  List.find (fun x => String.eqb (Asset.id x) (params r !!! "id")) l.

(** [AssetType.video] on the video route, [AssetType.image] otherwise. *)
Definition route_type (r : Request) : AssetType :=
  if String.eqb (params r !!! "type") "video" then video else image.

(** Asked with the empty password, the backend resolves the key of the
    listing route to a share with the assets [l], at least one. *)
Definition listed (w : World) (l : list Asset.t) : Prop :=
  getShareByKey (immich w) (params (req w) !!! "id") (Some (JStr ""))
  = Fulfilled (Some {| link := Some {| assets := l |} |})
  /\ l <> [].

Definition asks (w : World) : Effect :=
  GetShareByKey (params (req w) !!! "id") (Some (JStr "")).
End Contract.

(** The effects that write a response. *)
Definition is_response (e : Effect) : bool :=
  match e with
  | RespondToInvalidRequest _ | Send _ _ | SendJson _ _ | AssetBuffer _ _ _ _ => true
  | AddResponseHeaders | GetShareByKey _ _ | GetGalleryAssetsByShareKey _ => false
  end.

Definition responses (t : list Effect) : list Effect := List.filter is_response t.


(** [w] after the effects [es]. *)
Definition after (es : list Effect) (w : World) : World :=
  {| req := req w; clock := clock w; immich := immich w; trace := trace w ++ es |}.


(** A bound at or beyond the end of the list. *)
Definition beyond (len : Z) (n : number) : Prop :=
  n = PosInfinity \/ exists v, n = Finite v /\ len <= v.

Ltac run_route :=
  unfold immich_getShareByKey, emit, get_req, backend, await, throw, mbind, M_bind,
    mret, M_ret; simpl.

Ltac same_world :=
  unfold after; simpl; rewrite <- ?app_assoc; reflexivity.

(** * Properties *)

Example parseInt_samples :
  parseInt "20" = Finite 20 /\ parseInt "  -5px" = Finite (-5) /\
  parseInt "abc" = NaN /\ parseInt "0x1f" = Finite 31 /\
  parseInt "" = NaN /\ parseInt "-0" = Finite 0 /\ parseInt "1,2" = Finite 1 /\
  parseInt "undefined" = NaN.
Proof. repeat split; reflexivity. Qed.

(** Beyond 2^53 the number is the nearest double, from 2^1024 on an
    infinity; a no-break space in front is skipped. *)
Example parseInt_doubles :
  parseInt "9007199254740993" = Finite 9007199254740992
  /\ parseInt "9007199254740995" = Finite 9007199254740996
  /\ parseInt (pretty (10 ^ 400)) = PosInfinity
  /\ parseInt ("-" +:+ pretty (10 ^ 400)) = NegInfinity
  /\ parseInt (String (ascii_of_nat 194) (String (ascii_of_nat 160) "2")) = Finite 2.
Proof. repeat split; vm_compute; reflexivity. Qed.

Example js_toString_samples :
  js_toString pretty (JArr [JStr "1"; JNull; JStr "2"]) = Some "1,,2"
  /\ js_toString pretty (JObj [("a", JStr "1")]) = Some "[object Object]"
  /\ js_toString pretty (JObj [("toString", JStr "1")]) = None
  /\ js_toString pretty (JArr [JStr "2"; JObj [("toString", JStr "1")]]) = None.
Proof. repeat split; reflexivity. Qed.

(** ** Slices *)

Lemma positions_from_take_drop {A} (l : list A) (start stop : Z) :
  0 <= start ->
  forall i, 0 <= i ->
  positions_from i l start stop
  = take (Z.to_nat (stop - Z.max start i)) (drop (Z.to_nat (start - i)) l).
Proof.
  intros Hs. induction l as [|x rest IH]; intros i Hi; simpl.
  - by rewrite drop_nil, take_nil.
  - rewrite (IH (i + 1)) by lia.
    destruct (Z.leb_spec start i) as [Hle|Hlt]; simpl.
    + replace (Z.to_nat (start - i)) with 0%nat by lia.
      replace (Z.to_nat (start - (i + 1))) with 0%nat by lia.
      rewrite Z.max_r by lia. rewrite Z.max_r by lia. simpl.
      destruct (Z.ltb_spec i stop) as [Hin|Hout].
      * replace (Z.to_nat (stop - i)) with (S (Z.to_nat (stop - (i + 1)))) by lia.
        reflexivity.
      * replace (Z.to_nat (stop - i)) with 0%nat by lia.
        replace (Z.to_nat (stop - (i + 1))) with 0%nat by lia.
        reflexivity.
    + rewrite Z.max_l by lia. rewrite Z.max_l by lia.
      replace (Z.to_nat (start - i)) with (S (Z.to_nat (start - (i + 1)))) by lia.
      reflexivity.
Qed.

(** On a start that is not negative and a stop that is not before it,
    [slice] returns the elements at the positions of the interval. *)
Lemma js_slice_interval {A} (l : list A) (start stop : Z) :
  0 <= start -> start <= stop -> js_slice l start stop = interval l start stop.
Proof.
  intros Hs Hle. unfold interval.
  rewrite positions_from_take_drop by lia.
  rewrite Z.max_l by lia. rewrite Z.sub_0_r.
  unfold js_slice, relative_index.
  destruct (Z.ltb_spec start 0) as [?|_]; [lia|].
  destruct (Z.ltb_spec stop 0) as [?|_]; [lia|].
  destruct (Z.le_gt_cases (Z.of_nat (length l)) start) as [Hout|Hin].
  - rewrite !drop_ge by lia. by rewrite !take_nil.
  - rewrite (Z.min_l start) by lia.
    destruct (Z.le_gt_cases stop (Z.of_nat (length l))) as [Hfit|Hover].
    + rewrite Z.min_l by lia. reflexivity.
    + rewrite Z.min_r by lia.
      rewrite !take_ge; [done | rewrite length_drop; lia | rewrite length_drop; lia].
Qed.

Lemma interval_beyond {A} (l : list A) (start stop : Z) :
  Z.of_nat (length l) <= start -> interval l start stop = [].
Proof.
  intros Hout. unfold interval.
  rewrite positions_from_take_drop by lia.
  rewrite drop_ge by lia. apply take_nil.
Qed.

(** ** Doubles *)

Lemma round_small (z : Z) : Z.abs z < 2 ^ 53 -> round_double z = Finite z.
Proof.
  intros Hz. unfold round_double. by destruct (Z.ltb_spec (Z.abs z) (2 ^ 53)); [|lia].
Qed.

(** From 2^53 on a double is at least 2^53. *)
Lemma round_large (z : Z) :
  2 ^ 53 <= z ->
  round_double z = PosInfinity \/ exists v, round_double z = Finite v /\ 2 ^ 53 <= v.
Proof.
  intros Hz. assert (0 < z) as Hpos by lia.
  unfold round_double. rewrite (Z.abs_eq z) by lia.
  destruct (Z.ltb_spec z (2 ^ 53)) as [?|_]; [lia|].
  set (e := Z.log2 z - 52).
  set (q := z / 2 ^ e).
  set (m := if _ : bool then q + 1 else q).
  assert (1 <= e) as He.
  { unfold e. assert (53 <= Z.log2 z); [|lia]. by apply Z.log2_le_pow2. }
  assert (0 < 2 ^ e) as Hpow by (apply Z.pow_pos_nonneg; lia).
  assert (2 <= 2 ^ e) as Htwo.
  { change 2 with (2 ^ 1) at 1. apply Z.pow_le_mono_r; lia. }
  assert (2 ^ 52 <= q) as Hq.
  { unfold q. apply Z.div_le_lower_bound; [lia|].
    rewrite <- Z.pow_add_r by lia. replace (e + 52) with (Z.log2 z) by (unfold e; lia).
    by apply Z.log2_spec. }
  assert (q <= m) as Hm by (unfold m; destruct (_ : bool); lia).
  destruct (Z.leb_spec (2 ^ 1024) (m * 2 ^ e)) as [_|_].
  - destruct (Z.ltb_spec z 0); [lia|]. by left.
  - right. eexists. split; [reflexivity|].
    rewrite Z.sgn_pos by lia.
    change (2 ^ 53) with (2 ^ 52 * 2). nia.
Qed.

Lemma round_beyond (len z : Z) :
  0 <= len < 2 ^ 53 -> len <= z -> beyond len (round_double z).
Proof.
  intros Hlen Hz. destruct (Z.lt_ge_cases z (2 ^ 53)) as [Hsmall|Hbig].
  - right. exists z. split; [|done]. apply round_small. lia.
  - destruct (round_large z Hbig) as [->|(v & -> & Hv)]; [by left|].
    right. exists v. split; [done|lia].
Qed.

Lemma slice_bound_beyond (len : Z) (n : number) :
  0 <= len -> beyond len n -> slice_bound len n = len.
Proof.
  intros Hlen [->|(v & -> & Hv)]; simpl; [done|].
  unfold relative_index. destruct (Z.ltb_spec v 0); lia.
Qed.

Lemma slice_from_beyond {A} (l : list A) (start stop : number) :
  beyond (Z.of_nat (length l)) start -> slice l start stop = [].
Proof.
  intros Hb. unfold slice. rewrite (slice_bound_beyond _ start) by (done || lia).
  rewrite drop_ge by lia. apply take_nil.
Qed.

Lemma js_slice_from_beyond {A} (l : list A) (start stop : Z) :
  Z.of_nat (length l) <= start -> js_slice l start stop = [].
Proof.
  intros Hs. unfold js_slice.
  assert (relative_index (Z.of_nat (length l)) start = Z.of_nat (length l)) as ->.
  { unfold relative_index. destruct (Z.ltb_spec start 0); lia. }
  rewrite drop_ge by lia. apply take_nil.
Qed.

Lemma slice_to_beyond {A} (l : list A) (start stop : Z) (n : number) :
  Z.of_nat (length l) <= stop -> beyond (Z.of_nat (length l)) n ->
  slice l (Finite start) n = js_slice l start stop.
Proof.
  intros Hs Hb. unfold slice, js_slice. rewrite (slice_bound_beyond _ n) by (done || lia).
  assert (relative_index (Z.of_nat (length l)) stop = Z.of_nat (length l)) as ->.
  { unfold relative_index. destruct (Z.ltb_spec stop 0); lia. }
  reflexivity.
Qed.

Lemma num_sub_finite (a b : Z) : num_sub (Finite a) (Finite b) = round_double (a - b).
Proof. reflexivity. Qed.

(** The page of the listing, computed in doubles, over a list shorter than
    2^53: the slice between the exact bounds. *)
Lemma page_slice {A} (l : list A) (page size : Z) :
  1 <= page -> 1 <= size -> Z.of_nat (length l) < 2 ^ 53 ->
  slice l (num_mul (num_sub (Finite page) (Finite 1)) (Finite size))
    (num_add (num_mul (num_sub (Finite page) (Finite 1)) (Finite size)) (Finite size))
  = js_slice l ((page - 1) * size) ((page - 1) * size + size).
Proof.
  intros Hp Hs Hlen. set (n := Z.of_nat (length l)) in *.
  assert (0 <= n) as Hn by (unfold n; lia).
  rewrite num_sub_finite.
  assert (0 <= page - 1) as Ha by lia.
  assert (page - 1 <= (page - 1) * size) as Hprod by nia.
  destruct (Z.lt_ge_cases ((page - 1) * size) (2 ^ 53)) as [Hsmall|Hbig].
  - rewrite (round_small (page - 1)) by lia. cbn [num_mul].
    rewrite (round_small ((page - 1) * size)) by lia. cbn [num_add].
    destruct (Z.lt_ge_cases ((page - 1) * size + size) (2 ^ 53)) as [Hfit|Hover].
    + rewrite round_small by lia. reflexivity.
    + apply slice_to_beyond; [fold n; lia|].
      apply round_beyond; fold n; lia.
  - rewrite (js_slice_from_beyond l) by (fold n; lia).
    apply slice_from_beyond. fold n.
    destruct (Z.lt_ge_cases (page - 1) (2 ^ 53)) as [Ha53|Ha53].
    + rewrite (round_small (page - 1)) by lia. cbn [num_mul].
      apply round_beyond; lia.
    + destruct (round_large (page - 1) Ha53) as [->|(v & -> & Hv)]; cbn [num_mul].
      * destruct (Z.eqb_spec size 0); [lia|]. destruct (Z.ltb_spec size 0); [lia|]. by left.
      * apply round_beyond; [lia|]. nia.
Qed.

Lemma slice_run {A} (l : list A) (start stop : number) :
  exists before behind, l = (before ++ slice l start stop ++ behind)%list.
Proof.
  unfold slice.
  set (k := Z.to_nat (slice_bound (Z.of_nat (length l)) start)).
  set (n := Z.to_nat (slice_bound (Z.of_nat (length l)) stop
                      - slice_bound (Z.of_nat (length l)) start)).
  exists (take k l), (drop n (drop k l)).
  by rewrite (take_drop n (drop k l)), take_drop.
Qed.

(** ** The password gate *)

Section GateFacts.
Context `{Collaborators}.
#[local] Arguments prop : simpl never.
#[local] Arguments truthy : simpl never.

Lemma truthy_key (k : option string) :
  truthy (JStr <$> k) = true -> exists s, k = Some s /\ s <> "".
Proof.
  destruct k as [s|]; [|done].
  intros Ht. exists s. split; [done|]. intros ->. done.
Qed.

Lemma prop_object (v : option json) (k : string) (x : json) :
  prop v k = Some x -> exists fields, v = Some (JObj fields) /\ field k fields = Some x.
Proof.
  destruct v as [[| | | | |fields]|]; try done. unfold prop. eauto.
Qed.

(** What [decodeCookie] hands to the rest of the route: the world as it
    came, or the same world with the password of a valid credential. *)
Lemma decodeCookie_cases (next : M unit) (w : World) :
  decodeCookie next w = next w
  \/ exists p, valid_credential w p
               /\ decodeCookie next w = next (with_req (with_password p (req w)) w).
Proof.
  unfold decodeCookie, get_req, mbind, M_bind.
  destruct (truthy (JStr <$> params (req w) !! "key")) eqn:Hk; simpl; [|by left].
  destruct (truthy_key _ Hk) as (k & Hkey & Hne).
  rewrite Hkey. simpl.
  destruct (session (req w)) as [store|] eqn:Hs; simpl; [|by left].
  destruct (store !! k) as [entry|] eqn:He; simpl; [|by left].
  destruct (truthy (prop (Some entry) "iv")) eqn:Hiv; simpl; [|by left].
  destruct (truthy (prop (Some entry) "cr")) eqn:Hcr; simpl; [|by left].
  unfold try_catch, attempt, now, mbind, M_bind.
  destruct (decrypt _) as [plain|] eqn:Hd; simpl; [|by left].
  destruct (JSON_parse plain) as [payload|] eqn:Hp; simpl; [|by left].
  destruct (truthy (prop (Some payload) "expires")) eqn:Hex; simpl; [|by left].
  unfold later_than.
  destruct (dayjs (prop (Some payload) "expires")) as [x|] eqn:Hx; simpl; [|by left].
  destruct (Z.ltb_spec (clock w) x) as [Hlt|Hge]; simpl; [|by left].
  right. exists (prop (Some payload) "password"). split; [|done].
  destruct (prop (Some payload) "expires") as [e|] eqn:Hf; [|done].
  destruct (prop_object _ _ _ Hf) as (fields & [= ->] & Hfe).
  simpl. by eapply valid_credential_intro.
Qed.

(** C2.  The request handed on by the password gate carries a password only
    if the session store holds, under the share key, a pair that decrypts
    to a JSON object with a [password] field (the password attached) and an
    [expires] field naming an instant strictly after the time of
    decoding. *)
Theorem decodeCookie_password_only_if_valid (w : World) (p : json) :
  password (req w) = None ->
  password (req (world_of (decodeCookie (mret tt) w))) = Some p ->
  valid_credential w (Some p).
Proof.
  intros Hnone Hp.
  destruct (decodeCookie_cases (mret tt) w) as [Hsame|(q & Hvalid & Hrun)].
  - rewrite Hsame in Hp. simpl in Hp. congruence.
  - rewrite Hrun in Hp. simpl in Hp. by subst q.
Qed.

(** C7.  Whatever the session store holds, the password gate returns
    without throwing and runs the rest of the route, on the request as it
    came unless a valid credential was found; no effect is produced by the
    gate itself. *)
Theorem decodeCookie_never_aborts (next : M unit) (w : World) :
  (exists w', decodeCookie (mret tt) w = Done tt w')
  /\ exists w', decodeCookie next w = next w'
                /\ trace w' = trace w
                /\ (w' = w
                    \/ exists p, valid_credential w p
                                 /\ w' = with_req (with_password p (req w)) w).
Proof.
  split.
  - destruct (decodeCookie_cases (mret tt) w) as [Hsame|(q & _ & Hrun)].
    + rewrite Hsame. by eexists.
    + rewrite Hrun. by eexists.
  - destruct (decodeCookie_cases next w) as [Hsame|(q & Hvalid & Hrun)].
    + exists w. eauto.
    + eexists. split; [exact Hrun|]. split; [done|]. right. eauto.
Qed.
End GateFacts.

Lemma decodeCookie_password_witness :
  password (req Sample.unlocked) = None
  /\ password (req (world_of (decodeCookie (mret tt) Sample.unlocked))) = Some (JStr "secret")
  /\ valid_credential Sample.unlocked (Some (JStr "secret")).
Proof.
  split; [reflexivity|]. split; [vm_compute; reflexivity|].
  apply (decodeCookie_password_only_if_valid Sample.unlocked (JStr "secret"));
    vm_compute; reflexivity.
Defined.

(** A store without a valid credential leaves the request as it came. *)
Lemma decodeCookie_without_credential `{Collaborators} (next : M unit) (w : World) :
  (forall p, ~ valid_credential w p) -> decodeCookie next w = next w.
Proof.
  intros Hnone. destruct (decodeCookie_cases next w) as [Hsame|(p & Hvalid & _)]; [done|].
  by destruct (Hnone p).
Qed.

(** The gate on the sample store: within the hour, at the instant of expiry,
    with a pair [decrypt] refuses, with a plaintext [JSON.parse] refuses. *)
Example gate_samples :
  password (req (world_of (decodeCookie (mret tt) (Sample.at_instant 4999 Sample.unlocked))))
  = Some (JStr "secret")
  /\ decodeCookie (mret tt) (Sample.at_instant 5000 Sample.unlocked)
     = Done tt (Sample.at_instant 5000 Sample.unlocked)
  /\ decodeCookie (mret tt) Sample.tampered = Done tt Sample.tampered
  /\ decodeCookie (mret tt) Sample.garbled = Done tt Sample.garbled.
Proof. repeat split; vm_compute; reflexivity. Qed.

(** ** The unlock endpoint *)

Section UnlockFacts.
Context `{Collaborators}.

(** The store after an unlock whose key converts to the name [k], a name
    the session object takes as a property of its own. *)
Lemma unlock_stores (w : World) (store : gmap string json) (k : string) :
  session (req w) = Some store ->
  truthy (field "key" (body (req w))) = true ->
  js_toString_opt number_toString (field "key" (body (req w))) = Some k ->
  Session_assign k = Assigns ->
  unlock w
  = Done tt (after [Send 200 ""]
               (with_req
                  (with_session
                     (<[k := pair_json (encrypt (JSON_stringify
                              (credential (field "password" (body (req w)))
                                          (dayjs_format (add_hour (clock w))))))]> store)
                     (req w)) w)).
Proof.
  intros Hs Hk Hconv Hassign.
  unfold unlock, assign, get_req, now, attempt, mbind, M_bind.
  rewrite Hs, Hk, Hconv. simpl. rewrite Hassign. reflexivity.
Qed.

Lemma unlock_skips (w : World) :
  session (req w) = None \/ truthy (field "key" (body (req w))) = false ->
  unlock w = Done tt (after [Send 200 ""] w).
Proof.
  intros Hno. unfold unlock, get_req, mbind, M_bind.
  destruct (session (req w)) as [store|]; [|reflexivity].
  destruct Hno as [?|Hk]; [done|]. rewrite Hk. reflexivity.
Qed.

(** A key that cannot be converted to a property name, or one the session
    object refuses to be assigned: the handler throws where it stands, before
    [res.send()]. *)
Lemma unlock_throws (w : World) (store : gmap string json) :
  session (req w) = Some store ->
  truthy (field "key" (body (req w))) = true ->
  js_toString_opt number_toString (field "key" (body (req w))) = None
  \/ (exists k, js_toString_opt number_toString (field "key" (body (req w))) = Some k
                /\ Session_assign k = Refuses) ->
  unlock w = Thrown TypeError w.
Proof.
  intros Hs Hk Hbad.
  unfold unlock, assign, get_req, now, attempt, throw, mbind, M_bind.
  rewrite Hs, Hk. destruct Hbad as [->|(k & -> & Hassign)]; simpl; [done|].
  by rewrite Hassign.
Qed.

End UnlockFacts.

(** C8.  The unlock handler does not always answer.  With a session store
    and a key that is an object with a [toString] property, converting the
    key to a property name throws; with the key ["isNew"], an accessor of
    the session object that has no setter, the assignment throws.  Either
    way the handler ends there: nothing is stored and [res.send()] is not
    reached.  With the key ["KEY"] the credential that runs out an hour
    later is stored and an empty 200 is sent. *)
Theorem unlock_throws_before_answering :
  unlock (Sample.unlock_post (JObj [("toString", JNum 1)]))
  = Thrown TypeError (Sample.unlock_post (JObj [("toString", JNum 1)]))
  /\ unlock (Sample.unlock_post (JStr "isNew"))
     = Thrown TypeError (Sample.unlock_post (JStr "isNew"))
  /\ responses (trace (world_of (unlock (Sample.unlock_post (JObj [("toString", JNum 1)])))))
     = []
  /\ unlock (Sample.unlock_post (JStr "KEY"))
     = Done tt (after [Send 200 ""]
                  (with_req
                     (with_session
                        {[ "KEY" := pair_json {| iv := "iv"; cr := "secret|3601000" |} ]}
                        (req (Sample.unlock_post (JStr "KEY"))))
                     (Sample.unlock_post (JStr "KEY")))).
Proof. repeat split; vm_compute; reflexivity. Qed.

(** Unlock, then a request for the same key: the password is attached until
    the hour is over. *)
Example unlock_then_access :
  let stored := world_of (unlock (Sample.unlock_post (JStr "KEY"))) in
  let later t := Sample.at_instant t (with_param "key" "KEY" stored) in
  password (req (world_of (decodeCookie (mret tt) (later 3600999)))) = Some (JStr "secret")
  /\ password (req (world_of (decodeCookie (mret tt) (later 3601000)))) = None.
Proof. split; vm_compute; reflexivity. Qed.

(** ** The asset-streaming route *)

Section AssetFacts.
Context `{Collaborators}.

Lemma bad_size_iff (size : option string) :
  bad_size size = true
  <-> exists s, size = Some s /\ s <> "" /\ ~ In s ImageSize.
Proof.
  unfold bad_size. rewrite andb_true_iff, negb_true_iff. split.
  - intros [Hpresent Hnot]. destruct (truthy_key _ Hpresent) as (s & -> & Hne).
    exists s. split; [done|]. split; [done|]. intros Hin.
    assert (existsb (String.eqb s) ImageSize = true) as Hyes; [|simpl in Hnot; congruence].
    apply existsb_exists. exists s. split; [done|]. apply String.eqb_refl.
  - intros (s & -> & Hne & Hout). split.
    + simpl. destruct (String.eqb_spec s ""); done.
    + simpl. destruct (existsb (String.eqb s) ImageSize) eqn:Hex; [|done].
      apply existsb_exists in Hex as (x & Hin & Heq).
      apply String.eqb_eq in Heq. by subst x.
Qed.

Lemma malformed_checks (r : Request) :
  malformed r ->
  negb (isKey (params r !!! "key")) || negb (isId (params r !!! "id")) = true
  \/ bad_size (params r !! "size") = true.
Proof.
  intros [Hk|[Hi|Hs]].
  - left. by rewrite Hk.
  - left. rewrite Hi. apply orb_true_r.
  - right. by apply bad_size_iff.
Qed.

Lemma part000_rejects (w : World) :
  malformed (req w) ->
  Part000.asset_route w = Done tt (after [AddResponseHeaders; RespondToInvalidRequest 404] w).
Proof.
  intros Hbad. unfold Part000.asset_route. run_route.
  destruct (malformed_checks _ Hbad) as [->| ->]; [same_world|].
  destruct (_ || _); same_world.
Qed.

Lemma index_rejects (w : World) :
  malformed (req w) ->
  Index.asset_route w = Done tt (after [AddResponseHeaders; RespondToInvalidRequest 404] w).
Proof.
  intros Hbad. unfold Index.asset_route. run_route.
  destruct (malformed_checks _ Hbad) as [->| ->]; [same_world|].
  destruct (_ || _); same_world.
Qed.

(** The request after the gate has the route parameters, the backend and
    the trace of the request before it. *)
Lemma gate_then (next : M unit) (w : World) :
  exists w', decodeCookie next w = next w'
    /\ params (req w') = params (req w)
    /\ range (req w') = range (req w)
    /\ immich w' = immich w
    /\ trace w' = trace w.
Proof.
  destruct (decodeCookie_cases next w) as [Hsame|(p & _ & Hrun)].
  - exists w. by rewrite Hsame.
  - eexists. split; [exact Hrun|]. done.
Qed.

Lemma share_asset_rejects (w : World) :
  malformed (req w) ->
  (exists w', Part000.share_asset w = Done tt w'
     /\ trace w' = (trace w ++ [AddResponseHeaders; RespondToInvalidRequest 404])%list)
  /\ (exists w', Index.share_asset w = Done tt w'
     /\ trace w' = (trace w ++ [AddResponseHeaders; RespondToInvalidRequest 404])%list).
Proof.
  intros Hbad. split.
  - destruct (gate_then Part000.asset_route w) as (w1 & Hrun & Hparams & _ & _ & Htrace).
    unfold Part000.share_asset. rewrite Hrun, part000_rejects.
    + eexists. split; [done|]. simpl. by rewrite Htrace.
    + unfold malformed. by rewrite Hparams.
  - destruct (gate_then Index.asset_route w) as (w1 & Hrun & Hparams & _ & _ & Htrace).
    unfold Index.share_asset. rewrite Hrun, index_rejects.
    + eexists. split; [done|]. simpl. by rewrite Htrace.
    + unfold malformed. by rewrite Hparams.
Qed.

(** C6.  A request whose key fails [isKey], whose id fails [isId], or whose
    size segment is present and is not a value of [ImageSize], gets the
    invalid-request response with code 404 and nothing else: the backend
    is not asked, whatever backend [b] the gateway is connected to.  Both
    [part_000] and [index.ts] do so. *)
Theorem malformed_request_rejected_before_backend (w : World) (b : Backend) :
  malformed (req w) ->
  (exists w', Part000.share_asset (with_backend b w) = Done tt w'
     /\ trace w' = (trace w ++ [AddResponseHeaders; RespondToInvalidRequest 404])%list)
  /\ (exists w', Index.share_asset (with_backend b w) = Done tt w'
     /\ trace w' = (trace w ++ [AddResponseHeaders; RespondToInvalidRequest 404])%list).
Proof.
  intros Hbad. exact (share_asset_rejects (with_backend b w) Hbad).
Qed.

(** C10, as the code has it.  With a session store and, as the key of the
    body, a non-empty string [k] that the session object takes as a property
    of its own, the unlock handler stores the credential under [k] although
    [isKey k] is false, while the asset-streaming route of either file
    answers every request for the key [k] with the invalid-request
    response. *)
Theorem unlock_stores_under_invalid_key (w : World) (store : gmap string json) (k : string) :
  session (req w) = Some store ->
  field "key" (body (req w)) = Some (JStr k) ->
  k <> "" ->
  Session_assign k = Assigns ->
  isKey k = false ->
  (exists w' store', unlock w = Done tt w'
     /\ session (req w') = Some store'
     /\ store' !! k
        = Some (pair_json (encrypt (JSON_stringify
             (credential (field "password" (body (req w)))
                         (dayjs_format (add_hour (clock w))))))))
  /\ forall w2, params (req w2) !!! "key" = k ->
       (exists w', Part000.share_asset w2 = Done tt w'
          /\ trace w' = (trace w2 ++ [AddResponseHeaders; RespondToInvalidRequest 404])%list)
       /\ (exists w', Index.share_asset w2 = Done tt w'
          /\ trace w' = (trace w2 ++ [AddResponseHeaders; RespondToInvalidRequest 404])%list).
Proof.
  intros Hs Hkey Hne Hassign Hinvalid. split.
  - rewrite (unlock_stores w store k Hs).
    + eexists. eexists. split; [done|]. simpl. split; [done|]. apply lookup_insert_eq.
    + rewrite Hkey. simpl. destruct (String.eqb_spec k ""); done.
    + by rewrite Hkey.
    + exact Hassign.
  - intros w2 Hk2. apply share_asset_rejects. left. by rewrite Hk2.
Qed.

Lemma find_nonempty (r : Request) (l : list Asset.t) (a : Asset.t) :
  find_asset r l = Some a -> (length l =? 0)%nat = false.
Proof. by destruct l. Qed.

Lemma part000_found (w : World) (l : list Asset.t) (a : Asset.t) :
  well_formed (req w) -> resolves_to w l -> find_asset (req w) l = Some a ->
  Part000.asset_route w
  = Done tt (after [AddResponseHeaders;
                    GetShareByKey (params (req w) !!! "key") (password (req w));
                    AssetBuffer (params (req w) !!! "key") (default "" (range (req w)))
                      (with_type (route_type (req w)) a) (params (req w) !! "size")] w).
Proof.
  intros (Hk & Hi & Hs) Hres Hfind. unfold Part000.asset_route. run_route.
  rewrite Hk, Hi, Hs. simpl. rewrite Hres. simpl.
  rewrite (find_nonempty _ _ _ Hfind). simpl.
  unfold find_asset in Hfind. rewrite Hfind. same_world.
Qed.

Lemma index_found (w : World) (l : list Asset.t) (a : Asset.t) :
  well_formed (req w) -> resolves_to w l -> find_asset (req w) l = Some a ->
  Index.asset_route w
  = Done tt (after [AddResponseHeaders;
                    GetShareByKey (params (req w) !!! "key") (password (req w));
                    AssetBuffer (params (req w) !!! "key") (default "" (range (req w)))
                      (with_type (route_type (req w)) a) (params (req w) !! "size")] w).
Proof.
  intros (Hk & Hi & Hs) Hres Hfind. unfold Index.asset_route. run_route.
  rewrite Hk, Hi, Hs. simpl. rewrite Hres. simpl.
  rewrite (find_nonempty _ _ _ Hfind). simpl.
  unfold find_asset in Hfind. rewrite Hfind. same_world.
Qed.

(** A share with assets, none of them with the id of the request: the
    handler of [part_000] returns without writing a response. *)
Lemma part000_unknown_id (w : World) (l : list Asset.t) :
  well_formed (req w) -> resolves_to w l -> l <> [] -> find_asset (req w) l = None ->
  Part000.asset_route w
  = Done tt (after [AddResponseHeaders;
                    GetShareByKey (params (req w) !!! "key") (password (req w))] w).
Proof.
  intros (Hk & Hi & Hs) Hres Hne Hfind. unfold Part000.asset_route. run_route.
  rewrite Hk, Hi, Hs. simpl. rewrite Hres. simpl.
  destruct l as [|x l']; [done|].
  unfold find_asset in Hfind. rewrite Hfind. same_world.
Qed.

(** The same request in [index.ts]: the invalid-request response. *)
Lemma index_unknown_id (w : World) (l : list Asset.t) :
  well_formed (req w) -> resolves_to w l -> find_asset (req w) l = None ->
  Index.asset_route w
  = Done tt (after [AddResponseHeaders;
                    GetShareByKey (params (req w) !!! "key") (password (req w));
                    RespondToInvalidRequest 404] w).
Proof.
  intros (Hk & Hi & Hs) Hres Hfind. unfold Index.asset_route. run_route.
  rewrite Hk, Hi, Hs. simpl. rewrite Hres. simpl.
  destruct l as [|x l']; [same_world|].
  unfold find_asset in Hfind. rewrite Hfind. same_world.
Qed.

(** A key the backend does not resolve, in either file. *)
Lemma unknown_key (w : World) (share : option Share) :
  well_formed (req w) ->
  getShareByKey (immich w) (params (req w) !!! "key") (password (req w)) = Fulfilled share ->
  (share ≫= link) = None ->
  Part000.asset_route w
  = Done tt (after [AddResponseHeaders;
                    GetShareByKey (params (req w) !!! "key") (password (req w));
                    RespondToInvalidRequest 404] w)
  /\ Index.asset_route w = Part000.asset_route w.
Proof.
  intros (Hk & Hi & Hs) Hres Hnone.
  unfold Part000.asset_route, Index.asset_route. run_route.
  rewrite Hk, Hi, Hs. simpl. rewrite Hres.
  destruct share as [[[lk|]]|]; [done| |]; simpl; (split; [same_world|reflexivity]).
Qed.

Lemma with_param_type (t : string) (w : World) :
  params (req (with_param "type" t w)) !!! "key" = params (req w) !!! "key"
  /\ params (req (with_param "type" t w)) !!! "id" = params (req w) !!! "id"
  /\ params (req (with_param "type" t w)) !! "size" = params (req w) !! "size"
  /\ params (req (with_param "type" t w)) !!! "type" = t.
Proof.
  simpl. rewrite !lookup_total_insert_ne by done.
  rewrite lookup_insert_ne by done. by rewrite lookup_total_insert_eq.
Qed.

(** C9.  When the asset is found, what is rendered is the asset of the
    share with its type set from the route: [video] when the [type] segment
    is ["video"], [image] otherwise.  So the photo route and the video route
    render, for one key and id, assets of different types. *)
Theorem asset_type_follows_route (w : World) (l : list Asset.t) (a : Asset.t) :
  well_formed (req w) -> resolves_to w l -> find_asset (req w) l = Some a ->
  let rendering t w0 :=
    after [AddResponseHeaders;
           GetShareByKey (params (req w) !!! "key") (password (req w));
           AssetBuffer (params (req w) !!! "key") (default "" (range (req w)))
             (with_type t a) (params (req w) !! "size")] w0 in
  Part000.asset_route w
  = Done tt (rendering (if String.eqb (params (req w) !!! "type") "video"
                        then video else image) w)
  /\ Part000.asset_route (with_param "type" "photo" w)
     = Done tt (rendering image (with_param "type" "photo" w))
  /\ Part000.asset_route (with_param "type" "video" w)
     = Done tt (rendering video (with_param "type" "video" w))
  /\ Asset.type (with_type image a) <> Asset.type (with_type video a).
Proof.
  intros Hwf Hres Hfind rendering. split; [exact (part000_found w l a Hwf Hres Hfind)|].
  assert (forall t, Part000.asset_route (with_param "type" t w)
            = Done tt (rendering (if String.eqb t "video" then video else image)
                         (with_param "type" t w))) as Hany.
  { intros t. destruct (with_param_type t w) as (Ek & Ei & Es & Et).
    rewrite (part000_found (with_param "type" t w) l a).
    - unfold rendering, route_type. by rewrite Ek, Es, Et.
    - unfold well_formed. by rewrite Ek, Ei, Es.
    - unfold resolves_to. by rewrite Ek.
    - unfold find_asset. by rewrite Ei. }
  split; [apply (Hany "photo")|]. split; [apply (Hany "video")|]. done.
Qed.
End AssetFacts.

Lemma malformed_request_witness :
  malformed (req Sample.odd_size)
  /\ exists w', Part000.share_asset (with_backend (Sample.backend_of []) Sample.odd_size)
                = Done tt w'
       /\ trace w' = [AddResponseHeaders; RespondToInvalidRequest 404].
Proof.
  assert (malformed (req Sample.odd_size)) as Hbad.
  { right. right. exists "huge". split; [reflexivity|]. split; [discriminate|].
    simpl. intros [Heq|[Heq|[Heq|[]]]]; discriminate. }
  split; [exact Hbad|].
  exact (proj1 (malformed_request_rejected_before_backend
                  Sample.odd_size (Sample.backend_of []) Hbad)).
Defined.

Lemma asset_type_witness :
  well_formed (req Sample.known_asset)
  /\ resolves_to Sample.known_asset [Sample.asset "a"]
  /\ find_asset (req Sample.known_asset) [Sample.asset "a"] = Some (Sample.asset "a")
  /\ Part000.asset_route (with_param "type" "video" Sample.known_asset)
     = Done tt (after [AddResponseHeaders; GetShareByKey "KEY" None;
                       AssetBuffer "KEY" "" (Asset.make "a" video []) None]
                  (with_param "type" "video" Sample.known_asset)).
Proof.
  assert (well_formed (req Sample.known_asset)) as Hwf by (repeat split).
  assert (resolves_to Sample.known_asset [Sample.asset "a"]) as Hres by reflexivity.
  assert (find_asset (req Sample.known_asset) [Sample.asset "a"] = Some (Sample.asset "a"))
    as Hfind by reflexivity.
  split; [exact Hwf|]. split; [exact Hres|]. split; [exact Hfind|].
  exact (proj1 (proj2 (proj2
           (asset_type_follows_route Sample.known_asset _ _ Hwf Hres Hfind)))).
Defined.

Lemma unlock_invalid_key_witness :
  session (req (Sample.unlock_post (JStr "not a key"))) = Some ∅
  /\ field "key" (body (req (Sample.unlock_post (JStr "not a key")))) = Some (JStr "not a key")
  /\ "not a key" <> ""
  /\ Session_assign "not a key" = Assigns
  /\ isKey "not a key" = false
  /\ exists w' store', unlock (Sample.unlock_post (JStr "not a key")) = Done tt w'
       /\ session (req w') = Some store'
       /\ store' !! "not a key" = Some (pair_json {| iv := "iv"; cr := "secret|3601000" |}).
Proof.
  split; [reflexivity|]. split; [reflexivity|]. split; [discriminate|].
  split; [reflexivity|]. split; [reflexivity|].
  exact (proj1 (unlock_stores_under_invalid_key
                  (Sample.unlock_post (JStr "not a key")) ∅ "not a key"
                  eq_refl eq_refl ltac:(discriminate) eq_refl eq_refl)).
Defined.

(** C10 as it was stated fails twice.  On a key that names an accessor of
    the session object: ["isNew"] is a non-empty string that [isKey]
    refuses, a session store is there, and the handler throws with nothing
    stored under that key.  And on the other endpoints: the listing does not
    reject a key that [isKey] refuses, it asks the backend for it and
    answers 200 when the backend knows it. *)
Lemma unlock_refuses_session_accessor :
  session (req (Sample.unlock_post (JStr "isNew"))) = Some ∅
  /\ field "key" (body (req (Sample.unlock_post (JStr "isNew")))) = Some (JStr "isNew")
  /\ isKey "isNew" = false
  /\ unlock (Sample.unlock_post (JStr "isNew"))
     = Thrown TypeError (Sample.unlock_post (JStr "isNew"))
  /\ (session (req (world_of (unlock (Sample.unlock_post (JStr "isNew")))))
        ≫= (.!! "isNew")) = None
  /\ isKey "not a key" = false
  /\ Index.api_second Sample.invalid_key_listing
     = Done tt (after [GetShareByKey "not a key" (Some (JStr ""));
          SendJson 200
            (JObj [("media", JArr [Index.project "not a key" (Sample.asset "a")]);
                   ("page", JNum 1); ("pageSize", JNum 20); ("total", JNum 1)])]
          Sample.invalid_key_listing).
Proof. repeat split; vm_compute; reflexivity. Qed.

(** C1.  In [part_000], a request for an id the share does not hold, the
    share having assets, ends with no response written, where an unknown key
    gets the invalid-request response with code 404; [index.ts] answers both
    with that response. *)
Theorem part000_unknown_id_unanswered :
  responses (trace (world_of (Part000.share_asset Sample.unknown_id))) = []
  /\ Part000.share_asset Sample.unknown_id
     = Done tt (after [AddResponseHeaders; GetShareByKey "KEY" None] Sample.unknown_id)
  /\ responses (trace (world_of (Part000.share_asset Sample.unknown_share)))
     = [RespondToInvalidRequest 404]
  /\ responses (trace (world_of (Index.share_asset Sample.unknown_id)))
     = [RespondToInvalidRequest 404]
  /\ responses (trace (world_of (Index.share_asset Sample.unknown_share)))
     = [RespondToInvalidRequest 404].
Proof. repeat split; vm_compute; reflexivity. Qed.

(** ** The listing *)

Section ListingFacts.
Context `{Collaborators}.

Lemma api_second_ok (w : World) (l : list Asset.t) (page pageSize : number) :
  listed w l ->
  Index.query_int (req w) "page" 1 = Some page ->
  Index.query_int (req w) "pageSize" 20 = Some pageSize ->
  let start := num_mul (num_sub page (Finite 1)) pageSize in
  Index.api_second w
  = Done tt (after [asks w;
                    SendJson 200
                      (JObj [("media", JArr (List.map (Index.project (params (req w) !!! "id"))
                                               (slice l start (num_add start pageSize))));
                             ("page", number_json page); ("pageSize", number_json pageSize);
                             ("total", JNum (Z.of_nat (length l)))])] w).
Proof.
  intros [Hres Hne] Hpage Hsize start.
  unfold Index.api_second, try_catch, attempt. run_route.
  rewrite Hres. simpl. destruct l as [|x l']; [done|]. simpl.
  rewrite Hpage. simpl. rewrite Hsize. simpl. same_world.
Qed.

(** A [page] or [pageSize] that cannot be converted to a string: [parseInt]
    throws inside the [try] and the handler answers as for a share that does
    not resolve. *)
Lemma api_second_unconvertible (w : World) (l : list Asset.t) :
  listed w l ->
  Index.query_int (req w) "page" 1 = None \/ Index.query_int (req w) "pageSize" 20 = None ->
  Index.api_second w = Done tt (after [asks w; SendJson 404 Index.error_envelope] w).
Proof.
  intros [Hres Hne] Hnone.
  unfold Index.api_second, try_catch, attempt. run_route.
  rewrite Hres. simpl. destruct l as [|x l']; [done|]. simpl.
  destruct (Index.query_int (req w) "page" 1) as [page|]; simpl; [|same_world].
  destruct Hnone as [?| ->]; [done|]. simpl. same_world.
Qed.

Lemma api_first_ok (w : World) (l : list Asset.t) :
  listed w l ->
  let origin := protocol (req w) +:+ "://" +:+ default "undefined" (host (req w)) in
  let key := params (req w) !!! "id" in
  Index.api_first w
  = Done tt (after [asks w;
                    SendJson 200
                      (JObj [("media", JArr (List.map (fun a =>
                         JObj [("id", JStr (Asset.id a));
                               ("thumbUrl", JStr (origin +:+ "/share/photo/" +:+ key +:+ "/"
                                                  +:+ Asset.id a +:+ "/thumb"));
                               ("originalUrl", JStr (origin +:+ "/share/photo/" +:+ key
                                                     +:+ "/" +:+ Asset.id a))]) l))])] w).
Proof.
  intros [Hres Hne] origin key. unfold Index.api_first, try_catch. run_route.
  rewrite Hres. simpl. destruct l as [|x l']; [done|]. simpl. same_world.
Qed.

Lemma api_fails (w : World) :
  (forall l, ~ listed w l) ->
  Index.api_second w = Done tt (after [asks w; SendJson 404 Index.error_envelope] w)
  /\ Index.api_first w = Done tt (after [asks w; SendJson 404 Index.error_envelope] w).
Proof.
  intros Hnot. unfold Index.api_second, Index.api_first, try_catch. run_route.
  destruct (getShareByKey _ _ _) as [[[[[[|x l']]|]]|]|e] eqn:Hres; simpl;
    try (split; same_world).
  exfalso. apply (Hnot (x :: l')). split; [exact Hres|done].
Qed.

Lemma part000_api_rejected (w : World) (e : Exn) :
  getGalleryAssetsByShareKey (immich w) (params (req w) !!! "id") = Rejects e ->
  Part000.api w
  = Done tt (after [GetGalleryAssetsByShareKey (params (req w) !!! "id");
                    SendJson 404 (JObj [("error", JStr "Invalid or expired share key")])] w).
Proof.
  intros Hrej. unfold Part000.api, try_catch, immich_getGalleryAssetsByShareKey. run_route.
  rewrite Hrej. same_world.
Qed.

Lemma query_int_converted (rq : Request) (name : string) (d : Z) (s : string) :
  js_toString_opt number_toString (query rq !! name) = Some s ->
  Index.query_int rq name d = Some (or_default (parseInt s) d).
Proof. intros Hs. unfold Index.query_int. by rewrite Hs. Qed.

Lemma or_default_cases (n : number) (d : Z) :
  (n = NaN \/ n = Finite 0 -> or_default n d = Finite d)
  /\ (n <> NaN -> n <> Finite 0 -> or_default n d = n).
Proof.
  split.
  - by intros [->| ->].
  - intros Hnan Hzero. destruct n as [v| | |]; try done. simpl.
    destruct (Z.eqb_spec v 0) as [->|_]; done.
Qed.

(** C3, as the code has it.  In the second revision of the listing, [page]
    and [pageSize] are [parseInt] of the query value with the defaults 1
    and 20, for every value that can be converted to a string: the default
    stands in when the value is missing, when it does not parse, and when it
    parses to zero; a value that parses to any other number, a negative one
    included, is used as parsed.  None of this affects the status: a share
    that resolves is answered with 200, the response carrying both
    numbers. *)
Theorem pagination_parameters (w : World) (l : list Asset.t) (sp ss : string) :
  listed w l ->
  js_toString_opt number_toString (query (req w) !! "page") = Some sp ->
  js_toString_opt number_toString (query (req w) !! "pageSize") = Some ss ->
  (query (req w) !! "page" = None -> or_default (parseInt sp) 1 = Finite 1)
  /\ (query (req w) !! "pageSize" = None -> or_default (parseInt ss) 20 = Finite 20)
  /\ (parseInt sp = NaN \/ parseInt sp = Finite 0 -> or_default (parseInt sp) 1 = Finite 1)
  /\ (parseInt ss = NaN \/ parseInt ss = Finite 0 -> or_default (parseInt ss) 20 = Finite 20)
  /\ (parseInt sp <> NaN -> parseInt sp <> Finite 0 -> or_default (parseInt sp) 1 = parseInt sp)
  /\ (parseInt ss <> NaN -> parseInt ss <> Finite 0 -> or_default (parseInt ss) 20 = parseInt ss)
  /\ exists media,
       Index.api_second w
       = Done tt (after [asks w;
                         SendJson 200
                           (JObj [("media", JArr media);
                                  ("page", number_json (or_default (parseInt sp) 1));
                                  ("pageSize", number_json (or_default (parseInt ss) 20));
                                  ("total", JNum (Z.of_nat (length l)))])] w).
Proof.
  intros Hl Hsp Hss.
  destruct (or_default_cases (parseInt sp) 1) as [Hp1 Hp2].
  destruct (or_default_cases (parseInt ss) 20) as [Hs1 Hs2].
  split.
  { intros Hmissing. rewrite Hmissing in Hsp. by injection Hsp as <-. }
  split.
  { intros Hmissing. rewrite Hmissing in Hss. by injection Hss as <-. }
  split; [exact Hp1|]. split; [exact Hs1|]. split; [exact Hp2|]. split; [exact Hs2|].
  eexists.
  exact (api_second_ok w l _ _ Hl (query_int_converted _ _ _ _ Hsp)
           (query_int_converted _ _ _ _ Hss)).
Qed.

(** C4, as the code has it.  When [page] and [pageSize] are positive and
    finite, the second revision of the listing answers a share of [n]
    assets, [n] below 2^53, with 200 and with [media] the projections of the
    assets at the positions from [(page-1)*pageSize] up to, not including,
    [(page-1)*pageSize + pageSize]; [total] is [n]; a start at or beyond [n]
    gives an empty [media]. *)
Theorem listing_page (w : World) (l : list Asset.t) (page pageSize : Z) :
  listed w l ->
  Index.query_int (req w) "page" 1 = Some (Finite page) ->
  Index.query_int (req w) "pageSize" 20 = Some (Finite pageSize) ->
  1 <= page ->
  1 <= pageSize ->
  Z.of_nat (length l) < 2 ^ 53 ->
  Index.api_second w
  = Done tt (after [asks w;
                    SendJson 200
                      (JObj [("media", JArr (List.map (Index.project (params (req w) !!! "id"))
                                               (interval l ((page - 1) * pageSize)
                                                  ((page - 1) * pageSize + pageSize))));
                             ("page", JNum page); ("pageSize", JNum pageSize);
                             ("total", JNum (Z.of_nat (length l)))])] w)
  /\ (Z.of_nat (length l) <= (page - 1) * pageSize ->
      interval l ((page - 1) * pageSize) ((page - 1) * pageSize + pageSize) = []).
Proof.
  intros Hl Hp Hs Hpage Hsize Hlen. split.
  - rewrite (api_second_ok w l _ _ Hl Hp Hs). cbv zeta.
    rewrite (page_slice l page pageSize Hpage Hsize Hlen).
    rewrite js_slice_interval; [reflexivity| |lia].
    apply Z.mul_nonneg_nonneg; lia.
  - apply interval_beyond.
Qed.

(** C5, as the code has it.  Both revisions of the listing in [index.ts]
    ask the backend for the share with the empty password and answer 404
    with the envelope [{ error: "Invalid or expired share key" }] when
    there is no share or no asset.  A share that has assets is answered by
    the second revision with 200 and a run of consecutive assets of the
    share, each projected to [{ id, thumbUrl, previewUrl, originalUrl }]
    over the fixed base, when [page] and [pageSize] can be converted to
    strings, and with the same 404 when one of them cannot; the first
    revision answers it with 200 and every asset projected to
    [{ id, thumbUrl, originalUrl }] over the protocol and host of the
    request.  The listing of [part_000] answers with the same envelope when
    [getGalleryAssetsByShareKey] rejects. *)
Theorem listing_responses (w : World) :
  let key := params (req w) !!! "id" in
  let origin := protocol (req w) +:+ "://" +:+ default "undefined" (host (req w)) in
  let envelope := JObj [("error", JStr "Invalid or expired share key")] in
  (forall l, listed w l ->
     (exists page pageSize before paged behind,
        Index.query_int (req w) "page" 1 = Some page
        /\ Index.query_int (req w) "pageSize" 20 = Some pageSize
        /\ l = (before ++ paged ++ behind)%list
        /\ Index.api_second w
           = Done tt (after [GetShareByKey key (Some (JStr ""));
                SendJson 200
                  (JObj [("media", JArr (List.map (fun a =>
                            JObj [("id", JStr (Asset.id a));
                                  ("thumbUrl",
                                   JStr ("https://i.techie.pics/share/photo/" +:+ key +:+ "/"
                                         +:+ Asset.id a +:+ "/thumbnail"));
                                  ("previewUrl",
                                   JStr ("https://i.techie.pics/share/photo/" +:+ key +:+ "/"
                                         +:+ Asset.id a +:+ "/preview"));
                                  ("originalUrl",
                                   JStr ("https://i.techie.pics/share/photo/" +:+ key +:+ "/"
                                         +:+ Asset.id a +:+ "/original"))]) paged));
                         ("page", number_json page); ("pageSize", number_json pageSize);
                         ("total", JNum (Z.of_nat (length l)))])] w))
     \/ ((Index.query_int (req w) "page" 1 = None
          \/ Index.query_int (req w) "pageSize" 20 = None)
         /\ Index.api_second w
            = Done tt (after [GetShareByKey key (Some (JStr "")); SendJson 404 envelope] w)))
  /\ ((forall l, ~ listed w l) ->
      Index.api_second w
      = Done tt (after [GetShareByKey key (Some (JStr "")); SendJson 404 envelope] w)
      /\ Index.api_first w
         = Done tt (after [GetShareByKey key (Some (JStr "")); SendJson 404 envelope] w))
  /\ (forall l, listed w l ->
      Index.api_first w
      = Done tt (after [GetShareByKey key (Some (JStr ""));
           SendJson 200
             (JObj [("media", JArr (List.map (fun a =>
                       JObj [("id", JStr (Asset.id a));
                             ("thumbUrl",
                              JStr (origin +:+ "/share/photo/" +:+ key +:+ "/"
                                    +:+ Asset.id a +:+ "/thumb"));
                             ("originalUrl",
                              JStr (origin +:+ "/share/photo/" +:+ key +:+ "/"
                                    +:+ Asset.id a))]) l))])] w))
  /\ (forall e, getGalleryAssetsByShareKey (immich w) key = Rejects e ->
      Part000.api w
      = Done tt (after [GetGalleryAssetsByShareKey key; SendJson 404 envelope] w)).
Proof.
  intros key origin envelope. split; [|split; [|split]].
  - intros l Hl.
    destruct (Index.query_int (req w) "page" 1) as [page|] eqn:Hp;
      [|right; split; [by left|apply (api_second_unconvertible w _ Hl); by left]].
    destruct (Index.query_int (req w) "pageSize" 20) as [pageSize|] eqn:Hs;
      [|right; split; [by right|apply (api_second_unconvertible w _ Hl); by right]].
    left.
    destruct (slice_run l (num_mul (num_sub page (Finite 1)) pageSize)
                (num_add (num_mul (num_sub page (Finite 1)) pageSize) pageSize))
      as (before & behind & Hrun).
    eexists page, pageSize, before, _, behind.
    split; [done|]. split; [done|]. split; [exact Hrun|].
    exact (api_second_ok w _ page pageSize Hl Hp Hs).
  - intros Hnot. exact (api_fails w Hnot).
  - intros l Hl. exact (api_first_ok w l Hl).
  - intros e Hrej. exact (part000_api_rejected w e Hrej).
Qed.
End ListingFacts.

Lemma listed_any_query (qs : list (string * json)) :
  listed (Sample.listing Sample.forty_five qs) Sample.forty_five.
Proof. split; [reflexivity|discriminate]. Qed.

Lemma pagination_parameters_witness :
  listed (Sample.listing Sample.forty_five [("page", JStr "abc")]) Sample.forty_five
  /\ parseInt "abc" = NaN
  /\ or_default (parseInt "abc") 1 = Finite 1
  /\ exists media,
       Index.api_second (Sample.listing Sample.forty_five [("page", JStr "abc")])
       = Done tt (after [GetShareByKey "KEY" (Some (JStr ""));
                         SendJson 200 (JObj [("media", JArr media); ("page", JNum 1);
                                             ("pageSize", JNum 20); ("total", JNum 45)])]
                    (Sample.listing Sample.forty_five [("page", JStr "abc")])).
Proof.
  split; [apply listed_any_query|]. split; [reflexivity|].
  destruct (pagination_parameters
              (Sample.listing Sample.forty_five [("page", JStr "abc")])
              Sample.forty_five "abc" "undefined" (listed_any_query _) eq_refl eq_refl)
    as (_ & _ & Hnan & _ & _ & _ & Hrun).
  split; [apply Hnan; by left|]. exact Hrun.
Defined.

(** C3 as the spec has it fails twice.  A negative page is kept: [page=-5]
    gives the page -5, so [page] is not always positive and the default does
    not stand in for every input that is not positive.  And a value that
    cannot be converted to a string, as [page[toString]=1] gives, is answered
    with the 404 of a share that does not resolve, though the share
    resolves. *)
Lemma negative_page_not_clamped :
  parseInt "-5" = Finite (-5)
  /\ Index.query_int (req Sample.minus_five) "page" 1 = Some (Finite (-5))
  /\ ~ (forall (w : World) (n : Z),
          Index.query_int (req w) "page" 1 = Some (Finite n) -> 0 < n)
  /\ (exists media,
        Index.api_second Sample.minus_five
        = Done tt (after [GetShareByKey "KEY" (Some (JStr ""));
                          SendJson 200 (JObj [("media", JArr media); ("page", JNum (-5));
                                              ("pageSize", JNum 20); ("total", JNum 45)])]
                     Sample.minus_five))
  /\ listed Sample.page_object Sample.forty_five
  /\ Index.api_second Sample.page_object
     = Done tt (after [GetShareByKey "KEY" (Some (JStr ""));
                       SendJson 404 Index.error_envelope] Sample.page_object).
Proof.
  split; [reflexivity|]. split; [reflexivity|]. split; [|split; [|split]].
  - intros Hall. specialize (Hall Sample.minus_five (-5) eq_refl). lia.
  - eexists. vm_compute. reflexivity.
  - apply listed_any_query.
  - vm_compute. reflexivity.
Qed.

Lemma listing_page_witness :
  listed (Sample.page_of_twenty "2") Sample.forty_five
  /\ Index.query_int (req (Sample.page_of_twenty "2")) "page" 1 = Some (Finite 2)
  /\ Index.query_int (req (Sample.page_of_twenty "2")) "pageSize" 20 = Some (Finite 20)
  /\ Index.api_second (Sample.page_of_twenty "2")
     = Done tt (after [GetShareByKey "KEY" (Some (JStr ""));
          SendJson 200
            (JObj [("media", JArr (List.map (Index.project "KEY")
                                     (interval Sample.forty_five 20 40)));
                   ("page", JNum 2); ("pageSize", JNum 20); ("total", JNum 45)])]
          (Sample.page_of_twenty "2")).
Proof.
  split; [apply listed_any_query|]. split; [reflexivity|]. split; [reflexivity|].
  exact (proj1 (listing_page (Sample.page_of_twenty "2") Sample.forty_five 2 20
                  (listed_any_query _) eq_refl eq_refl
                  ltac:(lia) ltac:(lia) ltac:(vm_compute; reflexivity))).
Defined.

(** The pages of the forty-five: items 21 to 40, items 41 to 45, nothing. *)
Example page_two_of_forty_five :
  Sample.media_ids (Index.api_second (Sample.page_of_twenty "2"))
  = List.map (fun n => Some (JStr (pretty (Z.of_nat n)))) (seq 21 20).
Proof. vm_compute. reflexivity. Qed.

Example page_three_of_forty_five :
  Sample.media_ids (Index.api_second (Sample.page_of_twenty "3"))
  = List.map (fun n => Some (JStr (pretty (Z.of_nat n)))) (seq 41 5).
Proof. vm_compute. reflexivity. Qed.

Example page_ninety_nine_of_forty_five :
  Index.api_second (Sample.page_of_twenty "99")
  = Done tt (after [GetShareByKey "KEY" (Some (JStr ""));
                    SendJson 200 (JObj [("media", JArr []); ("page", JNum 99);
                                        ("pageSize", JNum 20); ("total", JNum 45)])]
               (Sample.page_of_twenty "99")).
Proof. vm_compute. reflexivity. Qed.

(** A page size of four hundred digits is an infinity: the start is
    [0 * Infinity], which is [NaN], the slice is empty, and the size is
    written as [null]. *)
Example page_size_beyond_doubles :
  Index.api_second Sample.huge_page_size
  = Done tt (after [GetShareByKey "KEY" (Some (JStr ""));
                    SendJson 200 (JObj [("media", JArr []); ("page", JNum 1);
                                        ("pageSize", JNull); ("total", JNum 45)])]
               Sample.huge_page_size).
Proof. vm_compute. reflexivity. Qed.

(** C4 as the spec has it fails on a negative page: no position lies in the
    interval from -40 to -20, and the response for [page=-1] holds the twenty
    assets ["6"] to ["25"]. *)
Lemma negative_page_not_an_interval :
  Index.query_int (req Sample.minus_one) "page" 1 = Some (Finite (-1))
  /\ Index.query_int (req Sample.minus_one) "pageSize" 20 = Some (Finite 20)
  /\ interval Sample.forty_five ((-1 - 1) * 20) ((-1 - 1) * 20 + 20) = []
  /\ Sample.media_ids (Index.api_second Sample.minus_one)
     = List.map (fun n => Some (JStr (pretty (Z.of_nat n)))) (seq 6 20)
  /\ Index.api_second Sample.minus_one
     = Done tt (after [GetShareByKey "KEY" (Some (JStr ""));
          SendJson 200
            (JObj [("media", JArr (List.map (Index.project "KEY")
                                     (take 20 (drop 5 Sample.forty_five))));
                   ("page", JNum (-1)); ("pageSize", JNum 20); ("total", JNum 45)])]
          Sample.minus_one).
Proof. repeat split; vm_compute; reflexivity. Qed.

Lemma listing_responses_witness :
  listed (Sample.listing [Sample.asset "a"] []) [Sample.asset "a"]
  /\ Index.api_first (Sample.listing [Sample.asset "a"] [])
     = Done tt (after [GetShareByKey "KEY" (Some (JStr ""));
          SendJson 200
            (JObj [("media",
                    JArr [JObj [("id", JStr "a");
                                ("thumbUrl", JStr "http://localhost/share/photo/KEY/a/thumb");
                                ("originalUrl", JStr "http://localhost/share/photo/KEY/a")]])])]
          (Sample.listing [Sample.asset "a"] []))
  /\ exists page pageSize before paged behind,
       Index.query_int (req (Sample.listing [Sample.asset "a"] [])) "page" 1 = Some page
       /\ Index.query_int (req (Sample.listing [Sample.asset "a"] [])) "pageSize" 20
          = Some pageSize
       /\ [Sample.asset "a"] = (before ++ paged ++ behind)%list
       /\ Index.api_second (Sample.listing [Sample.asset "a"] [])
          = Done tt (after [GetShareByKey "KEY" (Some (JStr ""));
               SendJson 200
                 (JObj [("media", JArr (List.map (Index.project "KEY") paged));
                        ("page", number_json page); ("pageSize", number_json pageSize);
                        ("total", JNum 1)])]
               (Sample.listing [Sample.asset "a"] [])).
Proof.
  assert (listed (Sample.listing [Sample.asset "a"] []) [Sample.asset "a"]) as Hl.
  { split; [reflexivity|discriminate]. }
  split; [exact Hl|].
  destruct (listing_responses (Sample.listing [Sample.asset "a"] []))
    as (Hsecond & _ & Hfirst & _).
  split; [exact (Hfirst _ Hl)|].
  destruct (Hsecond _ Hl) as [Hpaged|[[Hnone|Hnone] _]];
    [exact Hpaged|vm_compute in Hnone; discriminate|vm_compute in Hnone; discriminate].
Defined.

(** C5 as the spec has it fails on the first revision of [index.ts]: the
    element of [media] has no [previewUrl] and its addresses start with the
    protocol and host of the request, not with a fixed base. *)
Lemma first_revision_projection :
  Index.api_first (Sample.listing [Sample.asset "a"] [])
  = Done tt (after [GetShareByKey "KEY" (Some (JStr ""));
       SendJson 200
         (JObj [("media",
                 JArr [JObj [("id", JStr "a");
                             ("thumbUrl", JStr "http://localhost/share/photo/KEY/a/thumb");
                             ("originalUrl", JStr "http://localhost/share/photo/KEY/a")]])])]
       (Sample.listing [Sample.asset "a"] []))
  /\ prop (Some (JObj [("id", JStr "a");
                       ("thumbUrl", JStr "http://localhost/share/photo/KEY/a/thumb");
                       ("originalUrl", JStr "http://localhost/share/photo/KEY/a")]))
       "previewUrl" = None
  /\ JObj [("id", JStr "a");
           ("thumbUrl", JStr "http://localhost/share/photo/KEY/a/thumb");
           ("originalUrl", JStr "http://localhost/share/photo/KEY/a")]
     <> Index.project "KEY" (Sample.asset "a").
Proof.
  split; [vm_compute; reflexivity|]. split; [reflexivity|]. discriminate.
Qed.

(** * Beyond the contract: how the handlers compose *)

(** ** Unlock, then the gate *)

Section UnlockThenGate.
Context `{Collaborators}.
#[local] Arguments prop : simpl never.
#[local] Arguments truthy : simpl never.

Lemma truthy_string (s : string) : s <> "" -> truthy (Some (JStr s)) = true.
Proof. intros Hne. unfold truthy. by destruct (String.eqb_spec s ""). Qed.

(** The store of the request after an unlock for the string key [k], a
    name the session object takes as a property of its own. *)
Lemma unlock_session (w : World) (store : gmap string json) (k : string) :
  session (req w) = Some store ->
  field "key" (body (req w)) = Some (JStr k) ->
  k <> "" ->
  Session_assign k = Assigns ->
  session (req (world_of (unlock w)))
  = Some (<[k := pair_json (encrypt (JSON_stringify
                   (credential (field "password" (body (req w)))
                               (dayjs_format (add_hour (clock w))))))]> store).
Proof.
  intros Hs Hk Hne Hassign. rewrite (unlock_stores w store k Hs); [done| | |done].
  - rewrite Hk. by apply truthy_string.
  - by rewrite Hk.
Qed.

(** Reading the session back keeps the entry of a name that is none of the
    session object's own. *)
Lemma reload_lookup (store : gmap string json) (k : string) :
  Session_in k = false -> reload store !! k = store !! k.
Proof.
  intros Hout. unfold reload. destruct (store !! k) as [v|] eqn:Hv.
  - by apply map_lookup_filter_Some.
  - apply map_lookup_filter_None. by left.
Qed.

(** The gate on a store whose entry for the key of the route is the pair
    [pair]. *)
Lemma gate_on_pair (next : M unit) (w : World) (store : gmap string json)
    (k : string) (pair : EncryptedPair) (plain : string) (fields : list (string * json))
    (e : string) (x : Z) :
  params (req w) !! "key" = Some k ->
  k <> "" ->
  session (req w) = Some store ->
  store !! k = Some (pair_json pair) ->
  iv pair <> "" ->
  cr pair <> "" ->
  decrypt {| iv := toString (Some (JStr (iv pair)));
             cr := toString (Some (JStr (cr pair))) |} = Some plain ->
  JSON_parse plain = Some (JObj fields) ->
  field "expires" fields = Some (JStr e) ->
  e <> "" ->
  dayjs (Some (JStr e)) = Some x ->
  decodeCookie next w
  = if clock w <? x
    then next (with_req (with_password (field "password" fields) (req w)) w)
    else next w.
Proof.
  intros Hkey Hne Hs He Hiv Hcr Hd Hp Hf Hene Hx.
  unfold decodeCookie, get_req, mbind, M_bind.
  rewrite Hkey, Hs. simpl. rewrite He.
  replace (prop (Some (pair_json pair)) "iv") with (Some (JStr (iv pair))) by reflexivity.
  replace (prop (Some (pair_json pair)) "cr") with (Some (JStr (cr pair))) by reflexivity.
  rewrite (truthy_string k Hne), (truthy_string _ Hiv), (truthy_string _ Hcr). simpl.
  unfold try_catch, attempt, now, mbind, M_bind. rewrite Hd. simpl. rewrite Hp. simpl.
  unfold prop. rewrite Hf. rewrite (truthy_string e Hene). simpl.
  unfold later_than. rewrite Hx. by destruct (clock w <? x).
Qed.

Lemma gate_after_unlock (next : M unit) (w w2 : World) (store : gmap string json)
    (k : string) (p : json) (x : Z) :
  session (req w) = Some store ->
  field "key" (body (req w)) = Some (JStr k) ->
  k <> "" ->
  Session_assign k = Assigns ->
  Session_in k = false ->
  field "password" (body (req w)) = Some p ->
  let e := dayjs_format (add_hour (clock w)) in
  let plain := JSON_stringify (credential (Some p) e) in
  iv (encrypt plain) <> "" ->
  cr (encrypt plain) <> "" ->
  decrypt {| iv := toString (Some (JStr (iv (encrypt plain))));
             cr := toString (Some (JStr (cr (encrypt plain)))) |} = Some plain ->
  JSON_parse plain = Some (credential (Some p) e) ->
  e <> "" ->
  dayjs (Some (JStr e)) = Some x ->
  session (req w2) = reload <$> session (req (world_of (unlock w))) ->
  params (req w2) !! "key" = Some k ->
  decodeCookie next w2
  = if clock w2 <? x
    then next (with_req (with_password (Some p) (req w2)) w2)
    else next w2.
Proof.
  intros Hs Hk Hne Hassign Hout Hpw e plain Hiv Hcr Hd Hp He Hx Hs2 Hk2.
  rewrite (unlock_session w store k Hs Hk Hne Hassign), Hpw in Hs2. simpl in Hs2.
  apply (gate_on_pair next w2 _ k (encrypt plain) plain
           [("password", p); ("expires", JStr e)] e x Hk2 Hne Hs2); try done.
  rewrite (reload_lookup _ k Hout). apply lookup_insert_eq.
Qed.

(** X1.  An unlock with a password and, as its key, a string that is no
    property name of the session object, then a request under that key whose
    session is the one of the unlock read back from the cookie: when the
    cipher, the JSON codec and [dayjs] read back what they wrote, the gate
    attaches the password as long as the clock is before the stored expiry,
    and hands the request on as it came from then on. *)
Theorem unlock_then_gate (next : M unit) (w w2 : World) (store : gmap string json)
    (k : string) (p : json) (x : Z) :
  session (req w) = Some store ->
  field "key" (body (req w)) = Some (JStr k) ->
  k <> "" ->
  Session_assign k = Assigns ->
  Session_in k = false ->
  field "password" (body (req w)) = Some p ->
  let e := dayjs_format (add_hour (clock w)) in
  let plain := JSON_stringify (credential (Some p) e) in
  iv (encrypt plain) <> "" ->
  cr (encrypt plain) <> "" ->
  decrypt {| iv := toString (Some (JStr (iv (encrypt plain))));
             cr := toString (Some (JStr (cr (encrypt plain)))) |} = Some plain ->
  JSON_parse plain = Some (credential (Some p) e) ->
  e <> "" ->
  dayjs (Some (JStr e)) = Some x ->
  session (req w2) = reload <$> session (req (world_of (unlock w))) ->
  params (req w2) !! "key" = Some k ->
  (clock w2 < x ->
   decodeCookie next w2 = next (with_req (with_password (Some p) (req w2)) w2))
  /\ (x <= clock w2 -> decodeCookie next w2 = next w2).
Proof.
  intros Hs Hk Hne Hassign Hout Hpw e plain Hiv Hcr Hd Hp He Hx Hs2 Hk2.
  rewrite (gate_after_unlock next w w2 store k p x Hs Hk Hne Hassign Hout Hpw
             Hiv Hcr Hd Hp He Hx Hs2 Hk2).
  split; intros Ht.
  - by destruct (Z.ltb_spec (clock w2) x); [|lia].
  - by destruct (Z.ltb_spec (clock w2) x); [lia|].
Qed.


End UnlockThenGate.

Lemma unlock_then_gate_witness :
  clock (Sample.revisit "KEY" 2000) < 3601000
  /\ decodeCookie (mret tt) (Sample.revisit "KEY" 2000)
     = Done tt (with_req (with_password (Some (JStr "secret"))
                            (req (Sample.revisit "KEY" 2000)))
                  (Sample.revisit "KEY" 2000)).
Proof.
  split; [reflexivity|].
  refine (proj1 (unlock_then_gate (mret tt) (Sample.unlock_post (JStr "KEY"))
                   (Sample.revisit "KEY" 2000) ∅ "KEY" (JStr "secret") 3601000
                   _ _ _ _ _ _ _ _ _ _ _ _ _ _) _);
    try (vm_compute; reflexivity); try (vm_compute; discriminate).
Defined.


(** ** The asset-streaming route, case by case *)

Section AssetCases.
Context `{Collaborators}.

Lemma malformed_or_well_formed (r : Request) : malformed r \/ well_formed r.
Proof.
  unfold malformed, well_formed.
  destruct (isKey (params r !!! "key")); [|left; by left].
  destruct (isId (params r !!! "id")); [|left; right; by left].
  destruct (bad_size (params r !! "size")) eqn:Hs; [|by right].
  left. right. right. by apply bad_size_iff.
Qed.


(** A size that passes the check is absent, empty, or a value of
    [ImageSize]. *)
Lemma good_size (size : option string) :
  bad_size size = false ->
  size = None \/ size = Some "" \/ exists v, size = Some v /\ In v ImageSize.
Proof.
  unfold bad_size. destruct size as [v|]; [|by left]. simpl.
  destruct (String.eqb_spec v "") as [->|Hne]; simpl; [right; by left|].
  intros Hin. right. right. exists v. split; [done|].
  apply negb_false_iff, existsb_exists in Hin as (x & Hx & Heq).
  apply String.eqb_eq in Heq. by subst x.
Qed.

(** What the backend gives for the key and password of the request. *)
Lemma backend_cases (w : World) :
  (exists e, getShareByKey (immich w) (params (req w) !!! "key") (password (req w)) = Rejects e)
  \/ (exists share,
        getShareByKey (immich w) (params (req w) !!! "key") (password (req w)) = Fulfilled share
        /\ (share ≫= link) = None)
  \/ exists l, resolves_to w l.
Proof.
  unfold resolves_to.
  destruct (getShareByKey _ _ _) as [[[[[l]|]]|]|e]; eauto.
Qed.

Lemma backend_rejects (w : World) (e : Exn) :
  well_formed (req w) ->
  getShareByKey (immich w) (params (req w) !!! "key") (password (req w)) = Rejects e ->
  Index.asset_route w
  = Thrown e (after [AddResponseHeaders;
                     GetShareByKey (params (req w) !!! "key") (password (req w))] w)
  /\ Part000.asset_route w = Index.asset_route w.
Proof.
  intros (Hk & Hi & Hs) Hrej. unfold Part000.asset_route, Index.asset_route. run_route.
  rewrite Hk, Hi, Hs. simpl. rewrite Hrej. split; [same_world|reflexivity].
Qed.

Lemma part000_no_asset (w : World) :
  well_formed (req w) -> resolves_to w [] ->
  Part000.asset_route w
  = Done tt (after [AddResponseHeaders;
                    GetShareByKey (params (req w) !!! "key") (password (req w));
                    RespondToInvalidRequest 404] w).
Proof.
  intros (Hk & Hi & Hs) Hres. unfold Part000.asset_route. run_route.
  rewrite Hk, Hi, Hs. simpl. rewrite Hres. same_world.
Qed.

(** Every run of the handler of [index.ts]. *)
Lemma index_asset_route_cases (w : World) :
  let key := params (req w) !!! "key" in
  let asked := GetShareByKey key (password (req w)) in
  (malformed (req w)
   /\ Index.asset_route w
      = Done tt (after [AddResponseHeaders; RespondToInvalidRequest 404] w))
  \/ (well_formed (req w)
      /\ exists e, getShareByKey (immich w) key (password (req w)) = Rejects e
           /\ Index.asset_route w = Thrown e (after [AddResponseHeaders; asked] w))
  \/ (well_formed (req w)
      /\ Index.asset_route w
         = Done tt (after [AddResponseHeaders; asked; RespondToInvalidRequest 404] w))
  \/ (well_formed (req w)
      /\ exists l a, resolves_to w l /\ find_asset (req w) l = Some a
           /\ Index.asset_route w
              = Done tt (after [AddResponseHeaders; asked;
                                AssetBuffer key (default "" (range (req w)))
                                  (with_type (route_type (req w)) a)
                                  (params (req w) !! "size")] w)).
Proof.
  intros key asked.
  destruct (malformed_or_well_formed (req w)) as [Hbad|Hwf].
  { left. split; [done|]. by apply index_rejects. }
  right. destruct (backend_cases w) as [(e & Hrej)|[(share & Hful & Hnone)|(l & Hres)]].
  - left. split; [done|]. exists e. split; [done|]. by apply backend_rejects.
  - right. left. split; [done|].
    destruct (unknown_key w share Hwf Hful Hnone) as [Hp ->]. exact Hp.
  - right. destruct (find_asset (req w) l) as [a|] eqn:Hfind.
    + right. split; [done|]. exists l, a. split; [done|]. split; [done|].
      by apply (index_found w l a).
    + left. split; [done|]. by apply (index_unknown_id w l).
Qed.

(** Every run of the handler of [part_000]. *)
Lemma part000_asset_route_cases (w : World) :
  let key := params (req w) !!! "key" in
  let asked := GetShareByKey key (password (req w)) in
  (malformed (req w)
   /\ Part000.asset_route w
      = Done tt (after [AddResponseHeaders; RespondToInvalidRequest 404] w))
  \/ (well_formed (req w)
      /\ exists e, getShareByKey (immich w) key (password (req w)) = Rejects e
           /\ Part000.asset_route w = Thrown e (after [AddResponseHeaders; asked] w))
  \/ (well_formed (req w)
      /\ Part000.asset_route w
         = Done tt (after [AddResponseHeaders; asked; RespondToInvalidRequest 404] w))
  \/ (well_formed (req w)
      /\ exists l a, resolves_to w l /\ find_asset (req w) l = Some a
           /\ Part000.asset_route w
              = Done tt (after [AddResponseHeaders; asked;
                                AssetBuffer key (default "" (range (req w)))
                                  (with_type (route_type (req w)) a)
                                  (params (req w) !! "size")] w))
  \/ (well_formed (req w)
      /\ exists l, resolves_to w l /\ l <> [] /\ find_asset (req w) l = None
           /\ Part000.asset_route w = Done tt (after [AddResponseHeaders; asked] w)).
Proof.
  intros key asked.
  destruct (malformed_or_well_formed (req w)) as [Hbad|Hwf].
  { left. split; [done|]. by apply part000_rejects. }
  right. destruct (backend_cases w) as [(e & Hrej)|[(share & Hful & Hnone)|(l & Hres)]].
  - left. split; [done|]. exists e. split; [done|].
    destruct (backend_rejects w e Hwf Hrej) as [Hp ->]. exact Hp.
  - right. left. split; [done|]. by destruct (unknown_key w share Hwf Hful Hnone).
  - right. destruct (find_asset (req w) l) as [a|] eqn:Hfind.
    + right. left. split; [done|]. exists l, a. split; [done|]. split; [done|].
      by apply (part000_found w l a).
    + destruct l as [|x l'].
      * left. split; [done|]. by apply part000_no_asset.
      * right. right. split; [done|]. exists (x :: l').
        split; [done|]. split; [done|]. split; [done|].
        by apply (part000_unknown_id w (x :: l')).
Qed.
End AssetCases.



Section AssetRouteFacts.
Context `{Collaborators}.



(** X5.  An asset is handed to [render.assetBuffer], in either file, only
    for the key and id of a request that passed the checks: it is an asset
    of the share the backend resolved that key to, it has the id asked for,
    its type is the one of the route, and the size passed along is absent,
    empty or a value of [ImageSize]. *)
Theorem rendered_asset_is_requested (w : World) (k r : string) (a : Asset.t)
    (s : option string) :
  trace w = [] ->
  In (AssetBuffer k r a s) (trace (world_of (Index.asset_route w)))
  \/ In (AssetBuffer k r a s) (trace (world_of (Part000.asset_route w))) ->
  k = params (req w) !!! "key"
  /\ isKey k = true
  /\ isId (params (req w) !!! "id") = true
  /\ Asset.id a = params (req w) !!! "id"
  /\ Asset.type a = (if String.eqb (params (req w) !!! "type") "video" then video else image)
  /\ r = default "" (range (req w))
  /\ s = params (req w) !! "size"
  /\ (s = None \/ s = Some "" \/ exists v, s = Some v /\ In v ImageSize)
  /\ exists l a0, resolves_to w l /\ In a0 l
       /\ a = with_type (Asset.type a) a0.
Proof.
  intros Hfresh Hin.
  assert (exists l a0, well_formed (req w) /\ resolves_to w l
            /\ find_asset (req w) l = Some a0
            /\ AssetBuffer k r a s
               = AssetBuffer (params (req w) !!! "key") (default "" (range (req w)))
                   (with_type (route_type (req w)) a0) (params (req w) !! "size"))
    as (l & a0 & (Hk & Hi & Hs) & Hres & Hfind & Heq).
  { destruct Hin as [Hin|Hin].
    - destruct (index_asset_route_cases w)
        as [[_ Hc]|[(_ & e & _ & Hc)|[[_ Hc]|(Hwf & l & a0 & Hres & Hfind & Hc)]]];
        rewrite Hc in Hin; simpl in Hin; rewrite Hfresh in Hin; simpl in Hin;
        repeat (destruct Hin as [Hin|Hin]; [try discriminate|]); try done.
      exists l, a0. by rewrite Hin.
    - destruct (part000_asset_route_cases w)
        as [[_ Hc]|[(_ & e & _ & Hc)|[[_ Hc]|[(Hwf & l & a0 & Hres & Hfind & Hc)
                                              |(_ & l & _ & _ & _ & Hc)]]]];
        rewrite Hc in Hin; simpl in Hin; rewrite Hfresh in Hin; simpl in Hin;
        repeat (destruct Hin as [Hin|Hin]; [try discriminate|]); try done.
      exists l, a0. by rewrite Hin. }
  injection Heq as -> -> -> ->.
  apply find_some in Hfind as [Hmember Hid]. apply String.eqb_eq in Hid.
  repeat split; try done.
  - by apply good_size.
  - by exists l, a0.
Qed.
End AssetRouteFacts.

Section UnlockThenAccess.
Context `{Collaborators}.


End UnlockThenAccess.


Lemma rendered_asset_witness :
  trace Sample.known_asset = []
  /\ Asset.id (Asset.make "a" image []) = "a"
  /\ exists l a0, resolves_to Sample.known_asset l /\ In a0 l
       /\ Asset.make "a" image [] = with_type image a0.
Proof.
  split; [reflexivity|].
  destruct (rendered_asset_is_requested Sample.known_asset "KEY" "" (Asset.make "a" image []) None)
    as (_ & _ & _ & Hid & _ & _ & _ & _ & Hfrom).
  - reflexivity.
  - left. vm_compute. right. right. by left.
  - split; [exact Hid|exact Hfrom].
Defined.


(** ** The pages of the listing *)

(** A slice is a run of consecutive elements of the list, in their order,
    whatever the bounds. *)
Lemma js_slice_run {A} (l : list A) (start stop : Z) :
  exists before behind, l = (before ++ js_slice l start stop ++ behind)%list.
Proof.
  unfold js_slice.
  set (k := Z.to_nat (relative_index (Z.of_nat (length l)) start)).
  set (n := Z.to_nat (relative_index (Z.of_nat (length l)) stop
                      - relative_index (Z.of_nat (length l)) start)).
  exists (take k l), (drop n (drop k l)).
  by rewrite (take_drop n (drop k l)), take_drop.
Qed.

Lemma js_slice_length {A} (l : list A) (start size : Z) :
  0 <= start -> 0 <= size ->
  Z.of_nat (length (js_slice l start (start + size)))
  = Z.min size (Z.max 0 (Z.of_nat (length l) - start)).
Proof.
  intros Hs Hn. unfold js_slice, relative_index.
  destruct (Z.ltb_spec start 0) as [?|_]; [lia|].
  destruct (Z.ltb_spec (start + size) 0) as [?|_]; [lia|].
  rewrite length_take, length_drop. lia.
Qed.

(** The element at position [i] is on the page of number [i / size + 1], at
    position [i mod size]. *)
Lemma js_slice_lookup {A} (l : list A) (i : nat) (a : A) (size : Z) :
  l !! i = Some a -> 1 <= size ->
  let page := Z.of_nat i / size + 1 in
  js_slice l ((page - 1) * size) ((page - 1) * size + size)
    !! Z.to_nat (Z.of_nat i mod size) = Some a.
Proof.
  intros Hi Hsize page. pose proof (lookup_lt_Some _ _ _ Hi) as Hlt.
  pose proof (Z.div_mod (Z.of_nat i) size ltac:(lia)) as Hdm.
  pose proof (Z.mod_pos_bound (Z.of_nat i) size ltac:(lia)) as Hmod.
  assert (0 <= Z.of_nat i / size) as Hq by (apply Z.div_pos; lia).
  unfold page. replace (Z.of_nat i / size + 1 - 1) with (Z.of_nat i / size) by lia.
  set (q := Z.of_nat i / size) in *. set (m := Z.of_nat i mod size) in *.
  assert (0 <= q * size) as Hstart by (apply Z.mul_nonneg_nonneg; lia).
  assert (q * size + m = Z.of_nat i) as Hsum by lia.
  unfold js_slice, relative_index.
  destruct (Z.ltb_spec (q * size) 0) as [?|_]; [lia|].
  destruct (Z.ltb_spec (q * size + size) 0) as [?|_]; [lia|].
  rewrite lookup_take_lt by lia. rewrite lookup_drop.
  replace (Z.to_nat (Z.min (q * size) (Z.of_nat (length l))) + Z.to_nat m)%nat with i by lia.
  exact Hi.
Qed.

Section ListingPages.
Context `{Collaborators}.

Lemma listed_or_not (w : World) : (exists l, listed w l) \/ (forall l, ~ listed w l).
Proof.
  unfold listed.
  destruct (getShareByKey _ _ _) as [[[[[[|x l]]|]]|]|e] eqn:Hres;
    try (right; intros l' [Heq _]; congruence).
  - right. intros l' [Heq Hne]. by injection Heq as <-.
  - left. by exists (x :: l).
Qed.

(** X7.  No listing handler throws, whatever the backend does: each asks the
    backend once and then writes one JSON response, with status 200 or with
    status 404 and the error envelope. *)
Theorem listing_always_answers (w : World) :
  (exists status payload,
     Index.api_second w = Done tt (after [asks w; SendJson status payload] w)
     /\ (status = 200 \/ status = 404 /\ payload = Index.error_envelope))
  /\ (exists status payload,
        Index.api_first w = Done tt (after [asks w; SendJson status payload] w)
        /\ (status = 200 \/ status = 404 /\ payload = Index.error_envelope))
  /\ (exists status payload,
        Part000.api w
        = Done tt (after [GetGalleryAssetsByShareKey (params (req w) !!! "id");
                          SendJson status payload] w)
        /\ (status = 200 \/ status = 404 /\ payload = Index.error_envelope)).
Proof.
  split; [|split].
  - destruct (listed_or_not w) as [[l Hl]|Hnot].
    + destruct (Index.query_int (req w) "page" 1) as [page|] eqn:Hp.
      * destruct (Index.query_int (req w) "pageSize" 20) as [pageSize|] eqn:Hs.
        -- rewrite (api_second_ok w l page pageSize Hl Hp Hs).
           eexists _, _. split; [reflexivity|by left].
        -- rewrite (api_second_unconvertible w l Hl) by (by right).
           eexists _, _. split; [reflexivity|by right].
      * rewrite (api_second_unconvertible w l Hl) by (by left).
        eexists _, _. split; [reflexivity|by right].
    + rewrite (proj1 (api_fails w Hnot)). eexists _, _. split; [reflexivity|by right].
  - destruct (listed_or_not w) as [[l Hl]|Hnot].
    + rewrite (api_first_ok w l Hl). eexists _, _. split; [reflexivity|by left].
    + rewrite (proj2 (api_fails w Hnot)). eexists _, _. split; [reflexivity|by right].
  - destruct (getGalleryAssetsByShareKey (immich w) (params (req w) !!! "id"))
      as [media|e] eqn:Hres.
    + unfold Part000.api, try_catch, immich_getGalleryAssetsByShareKey. run_route.
      rewrite Hres. simpl. eexists _, _. split; [same_world|by left].
    + rewrite (part000_api_rejected w e Hres). eexists _, _. split; [reflexivity|by right].
Qed.

(** X8.  With a positive, finite page size every asset of a share of fewer
    than 2^53 assets can be reached: the asset at position [i] is the
    element at position [i mod pageSize] of the [media] of page
    [i / pageSize + 1]. *)
Theorem every_asset_on_its_page (w : World) (l : list Asset.t) (i : nat) (a : Asset.t)
    (pageSize : Z) :
  listed w l ->
  l !! i = Some a ->
  Index.query_int (req w) "pageSize" 20 = Some (Finite pageSize) ->
  1 <= pageSize ->
  Index.query_int (req w) "page" 1 = Some (Finite (Z.of_nat i / pageSize + 1)) ->
  Z.of_nat (length l) < 2 ^ 53 ->
  exists media,
    Index.api_second w
    = Done tt (after [asks w;
                      SendJson 200
                        (JObj [("media", JArr media);
                               ("page", JNum (Z.of_nat i / pageSize + 1));
                               ("pageSize", JNum pageSize);
                               ("total", JNum (Z.of_nat (length l)))])] w)
    /\ media !! Z.to_nat (Z.of_nat i mod pageSize)
       = Some (Index.project (params (req w) !!! "id") a).
Proof.
  intros Hl Hi Hs Hsize Hp Hlen. eexists. split; [exact (api_second_ok w l _ _ Hl Hp Hs)|].
  cbv zeta. rewrite list_lookup_fmap.
  assert (0 <= Z.of_nat i / pageSize) by (apply Z.div_pos; lia).
  rewrite (page_slice l _ pageSize) by lia.
  by rewrite (js_slice_lookup l i a _ Hi Hsize).
Qed.

(** X9.  Whatever numbers [page] and [pageSize] are, negative and infinite
    ones included, the [media] of the listing are the projections of a run
    of consecutive assets of the share, in the order of the backend. *)
Theorem listing_media_is_a_run (w : World) (l : list Asset.t) (page pageSize : number) :
  listed w l ->
  Index.query_int (req w) "page" 1 = Some page ->
  Index.query_int (req w) "pageSize" 20 = Some pageSize ->
  exists before paged behind,
    l = (before ++ paged ++ behind)%list
    /\ Index.api_second w
       = Done tt (after [asks w;
                         SendJson 200
                           (JObj [("media", JArr (List.map (Index.project (params (req w) !!! "id"))
                                                    paged));
                                  ("page", number_json page);
                                  ("pageSize", number_json pageSize);
                                  ("total", JNum (Z.of_nat (length l)))])] w).
Proof.
  intros Hl Hp Hs.
  destruct (slice_run l (num_mul (num_sub page (Finite 1)) pageSize)
              (num_add (num_mul (num_sub page (Finite 1)) pageSize) pageSize))
    as (before & behind & Hrun).
  eexists before, _, behind. split; [exact Hrun|].
  exact (api_second_ok w l page pageSize Hl Hp Hs).
Qed.

(** X10.  With positive, finite [page] and [pageSize] over a share of [n]
    assets, [n] below 2^53, the [media] of the response has [pageSize]
    elements, or what is left of the [n] from the start of the page when
    that is less, and none when the page starts at or after [n]. *)
Theorem listing_page_length (w : World) (l : list Asset.t) (page pageSize : Z) :
  listed w l ->
  Index.query_int (req w) "page" 1 = Some (Finite page) ->
  Index.query_int (req w) "pageSize" 20 = Some (Finite pageSize) ->
  1 <= page ->
  1 <= pageSize ->
  Z.of_nat (length l) < 2 ^ 53 ->
  exists media,
    Index.api_second w
    = Done tt (after [asks w;
                      SendJson 200
                        (JObj [("media", JArr media);
                               ("page", JNum page); ("pageSize", JNum pageSize);
                               ("total", JNum (Z.of_nat (length l)))])] w)
    /\ Z.of_nat (length media)
       = Z.min pageSize (Z.max 0 (Z.of_nat (length l) - (page - 1) * pageSize)).
Proof.
  intros Hl Hp Hs Hpage Hsize Hlen. eexists.
  split; [exact (api_second_ok w l _ _ Hl Hp Hs)|].
  cbv zeta. rewrite length_map, (page_slice l page pageSize Hpage Hsize Hlen).
  apply js_slice_length; [|lia]. apply Z.mul_nonneg_nonneg; lia.
Qed.
End ListingPages.

Lemma every_asset_witness :
  listed (Sample.page_of_twenty "3") Sample.forty_five
  /\ Sample.forty_five !! 42%nat = Some (Sample.asset "43")
  /\ exists media,
       Index.api_second (Sample.page_of_twenty "3")
       = Done tt (after [GetShareByKey "KEY" (Some (JStr ""));
                         SendJson 200 (JObj [("media", JArr media); ("page", JNum 3);
                                             ("pageSize", JNum 20); ("total", JNum 45)])]
                    (Sample.page_of_twenty "3"))
       /\ media !! 2%nat = Some (Index.project "KEY" (Sample.asset "43")).
Proof.
  split; [apply listed_any_query|]. split; [reflexivity|].
  exact (every_asset_on_its_page (Sample.page_of_twenty "3") Sample.forty_five 42
           (Sample.asset "43") 20 (listed_any_query _) eq_refl eq_refl
           ltac:(lia) eq_refl ltac:(vm_compute; reflexivity)).
Defined.

Lemma listing_run_witness :
  listed Sample.minus_one Sample.forty_five
  /\ exists before paged behind,
       Sample.forty_five = (before ++ paged ++ behind)%list
       /\ Index.api_second Sample.minus_one
          = Done tt (after [GetShareByKey "KEY" (Some (JStr ""));
                            SendJson 200
                              (JObj [("media", JArr (List.map (Index.project "KEY") paged));
                                     ("page", JNum (-1)); ("pageSize", JNum 20);
                                     ("total", JNum 45)])]
                       Sample.minus_one).
Proof.
  split; [apply listed_any_query|].
  exact (listing_media_is_a_run Sample.minus_one Sample.forty_five (Finite (-1)) (Finite 20)
           (listed_any_query _) eq_refl eq_refl).
Defined.

Lemma listing_length_witness :
  listed (Sample.page_of_twenty "3") Sample.forty_five
  /\ exists media,
       Index.api_second (Sample.page_of_twenty "3")
       = Done tt (after [GetShareByKey "KEY" (Some (JStr ""));
                         SendJson 200 (JObj [("media", JArr media); ("page", JNum 3);
                                             ("pageSize", JNum 20); ("total", JNum 45)])]
                    (Sample.page_of_twenty "3"))
       /\ Z.of_nat (length media) = 5.
Proof.
  split; [apply listed_any_query|].
  exact (listing_page_length (Sample.page_of_twenty "3") Sample.forty_five 3 20
           (listed_any_query _) eq_refl eq_refl ltac:(lia) ltac:(lia)
           ltac:(vm_compute; reflexivity)).
Defined.

(** ** Refusals, the liveness probe and the first middleware *)

Section Refusals.
Context `{Collaborators}.

(** X11.  Whenever the asset-streaming route of [index.ts], gate included,
    returns without handing an asset to [render.assetBuffer], it has done
    this and nothing else, in this order: set the configured response
    headers, asked the backend for the share of the route's key at most once,
    and written the one response that the fallback route writes for an
    unknown path. *)
Theorem refusal_is_the_fallback_response (w : World) (w' : World) :
  trace w = [] ->
  Index.share_asset w = Done tt w' ->
  (forall k r a s, ~ In (AssetBuffer k r a s) (trace w')) ->
  trace (world_of (fallback w)) = [RespondToInvalidRequest 404]
  /\ (trace w' = AddResponseHeaders :: trace (world_of (fallback w))
      \/ exists p,
           trace w' = AddResponseHeaders
                      :: GetShareByKey (params (req w) !!! "key") p
                      :: trace (world_of (fallback w))).
Proof.
  intros Hfresh Hrun Hnone.
  assert (trace (world_of (fallback w)) = [RespondToInvalidRequest 404]) as Hfall.
  { unfold fallback, emit. simpl. by rewrite Hfresh. }
  split; [exact Hfall|]. rewrite Hfall.
  destruct (gate_then Index.asset_route w) as (w1 & Hgate & Hparams & _ & _ & Htrace).
  unfold Index.share_asset in Hrun. rewrite Hgate in Hrun.
  rewrite Hfresh in Htrace.
  destruct (index_asset_route_cases w1)
    as [[_ Hc]|[(_ & e & _ & Hc)|[[_ Hc]|(_ & l & a & _ & _ & Hc)]]];
    rewrite Hc in Hrun; try discriminate; injection Hrun as <-;
    simpl; rewrite Htrace; simpl.
  - by left.
  - right. exists (password (req w1)). by rewrite Hparams.
  - exfalso. eapply Hnone. simpl. rewrite Htrace. simpl. right. right. by left.
Qed.
End Refusals.

Lemma refusal_witness :
  trace Sample.unknown_id = []
  /\ trace (world_of (fallback Sample.unknown_id)) = [RespondToInvalidRequest 404]
  /\ (trace (after [AddResponseHeaders; GetShareByKey "KEY" None;
                    RespondToInvalidRequest 404] Sample.unknown_id)
      = AddResponseHeaders :: trace (world_of (fallback Sample.unknown_id))
      \/ exists p,
           trace (after [AddResponseHeaders; GetShareByKey "KEY" None;
                         RespondToInvalidRequest 404] Sample.unknown_id)
           = AddResponseHeaders
             :: GetShareByKey (params (req Sample.unknown_id) !!! "key") p
             :: trace (world_of (fallback Sample.unknown_id))).
Proof.
  split; [reflexivity|].
  apply (refusal_is_the_fallback_response Sample.unknown_id).
  - reflexivity.
  - vm_compute. reflexivity.
  - intros k r a s Hin. vm_compute in Hin.
    destruct Hin as [Hin|[Hin|[Hin|[]]]]; discriminate.
Defined.

(** X12.  The liveness probe answers 200 with the body ["ok"] exactly when
    [immich.accessible()] resolves to true and 503 with an empty body exactly
    when it resolves to false; when it rejects, the handler throws and no
    response is written. *)
Theorem healthcheck_answers (accessible : Promise bool) (w : World) :
  (accessible = Fulfilled true
   <-> healthcheck accessible w = Done tt (after [Send 200 "ok"] w))
  /\ (accessible = Fulfilled false
      <-> healthcheck accessible w = Done tt (after [Send 503 ""] w))
  /\ (forall e, accessible = Rejects e <-> healthcheck accessible w = Thrown e w).
Proof.
  unfold healthcheck. run_route.
  destruct accessible as [[|]|e0]; simpl; fold (after [Send 200 "ok"] w);
    fold (after [Send 503 ""] w); repeat split; try done; try congruence.
  - intros [= Heq]. apply app_inv_head in Heq. discriminate.
  - intros [= Heq]. apply app_inv_head in Heq. discriminate.
Qed.

(** X13.  Whatever the method, when the first middleware is done the
    response carries the three CORS headers with their fixed values, and
    every other header and the status are as they were: an [OPTIONS] request
    is answered there with [code], any other goes on to the rest of the
    chain. *)
Theorem cors_headers_always_set (code : Z) (method : string)
    (next : Cors.Res -> Cors.Res) (res : Cors.Res) :
  exists res',
    Cors.headers res' !! "Access-Control-Allow-Origin" = Some "*"
    /\ Cors.headers res' !! "Access-Control-Allow-Methods" = Some "GET, POST, OPTIONS"
    /\ Cors.headers res' !! "Access-Control-Allow-Headers"
       = Some "Origin, X-Requested-With, Content-Type, Accept"
    /\ (forall h, h <> "Access-Control-Allow-Origin" ->
                  h <> "Access-Control-Allow-Methods" ->
                  h <> "Access-Control-Allow-Headers" ->
                  Cors.headers res' !! h = Cors.headers res !! h)
    /\ Cors.status res' = Cors.status res
    /\ (method = "OPTIONS" /\ Cors.middleware code method next res = Cors.sendStatus code res'
        \/ method <> "OPTIONS" /\ Cors.middleware code method next res = next res').
Proof.
  unfold Cors.middleware. eexists. split; [|split; [|split; [|split; [|split]]]];
    [| | | | |destruct (String.eqb_spec method "OPTIONS"); [left|right]; split; done].
  - simpl. rewrite lookup_insert_ne by done. rewrite lookup_insert_ne by done.
    apply lookup_insert_eq.
  - simpl. rewrite lookup_insert_ne by done. apply lookup_insert_eq.
  - simpl. apply lookup_insert_eq.
  - intros h H1 H2 H3. simpl. by rewrite !lookup_insert_ne.
  - reflexivity.
Qed.

(** X14.  An [OPTIONS] request never gets past the first middleware,
    whatever is registered behind it.  In [index.ts] that leaves the preflight
    handler of the listing unused: the request is answered 204 with the
    methods [GET, POST, OPTIONS], not with the 200 and the methods
    [GET, OPTIONS] that handler would write.  [part_000] answers 200. *)
Theorem preflight_ends_at_the_first_middleware (next : Cors.Res -> Cors.Res) (res : Cors.Res) :
  Cors.index "OPTIONS" next res = Cors.index "OPTIONS" Cors.options_api res
  /\ Cors.status (Cors.index "OPTIONS" Cors.options_api res) = Some 204
  /\ Cors.headers (Cors.index "OPTIONS" Cors.options_api res) !! "Access-Control-Allow-Methods"
     = Some "GET, POST, OPTIONS"
  /\ Cors.status (Cors.options_api res) = Some 200
  /\ Cors.headers (Cors.options_api res) !! "Access-Control-Allow-Methods" = Some "GET, OPTIONS"
  /\ Cors.status (Cors.part000 "OPTIONS" next res) = Some 200.
Proof.
  repeat split; simpl; try reflexivity.
  - rewrite lookup_insert_ne by done. apply lookup_insert_eq.
  - rewrite lookup_insert_ne by done. apply lookup_insert_eq.
Qed.

Section ListingFrame.
Context `{Collaborators}.

(** X15.  The listing reads neither the session nor the password a gate may
    have put on the request: with any store and any password in their place
    both revisions of [index.ts] ask the backend the same question, with the
    empty password, and write the same response. *)
Theorem listing_ignores_the_session (w : World) (store : gmap string json)
    (p : option json) :
  trace (world_of (Index.api_second
                     (with_req (with_session store (with_password p (req w))) w)))
  = trace (world_of (Index.api_second w))
  /\ trace (world_of (Index.api_first
                        (with_req (with_session store (with_password p (req w))) w)))
     = trace (world_of (Index.api_first w)).
Proof.
  set (w' := with_req (with_session store (with_password p (req w))) w).
  destruct (listed_or_not w) as [[l Hl]|Hnot].
  - assert (listed w' l) as Hl' by exact Hl.
    rewrite (api_first_ok w l Hl), (api_first_ok w' l Hl'). split; [|done].
    destruct (Index.query_int (req w) "page" 1) as [page|] eqn:Hp.
    + destruct (Index.query_int (req w) "pageSize" 20) as [pageSize|] eqn:Hs.
      * by rewrite (api_second_ok w l page pageSize Hl Hp Hs),
          (api_second_ok w' l page pageSize Hl' Hp Hs).
      * rewrite (api_second_unconvertible w l Hl) by (by right).
        by rewrite (api_second_unconvertible w' l Hl') by (by right).
    + rewrite (api_second_unconvertible w l Hl) by (by left).
      by rewrite (api_second_unconvertible w' l Hl') by (by left).
  - assert (forall l, ~ listed w' l) as Hnot' by exact Hnot.
    destruct (api_fails w Hnot) as [-> ->]. destruct (api_fails w' Hnot') as [-> ->].
    by split.
Qed.
End ListingFrame.

(** ** A parameter given more than once *)

Lemma digits_stop_at_comma (r : Z) (s t : string) (acc : option Z) :
  digits r acc (s +:+ String "," t) = digits r acc s.
Proof.
  revert acc. induction s as [|c s IH]; intros acc; simpl.
  - unfold digit_value. simpl. reflexivity.
  - destruct (digit_value r c); [apply IH|reflexivity].
Qed.

(** A comma is no part of any white space. *)
Lemma wide_space_comma (b1 : nat) : wide_space b1 44 = false.
Proof. unfold wide_space. simpl. apply andb_false_r. Qed.

Lemma wider_space_comma_second (b1 b3 : nat) : wider_space b1 44 b3 = false.
Proof.
  unfold wider_space. simpl.
  by rewrite ?andb_false_r, ?andb_false_l, ?orb_false_r.
Qed.

Lemma wider_space_comma_third (b1 b2 : nat) : wider_space b1 b2 44 = false.
Proof.
  unfold wider_space. simpl.
  by rewrite ?andb_false_r, ?andb_false_l, ?orb_false_r.
Qed.

Lemma trim_start_at_comma (t : string) : trim_start (String "," t) = String "," t.
Proof. destruct t as [|c2 [|c3 t']]; reflexivity. Qed.

Lemma trim_start_comma (s t : string) :
  trim_start (s +:+ String "," t) = trim_start s +:+ String "," t.
Proof.
  assert (forall n s, (String.length s <= n)%nat ->
            trim_start (s +:+ String "," t) = trim_start s +:+ String "," t) as Hall.
  { clear s. induction n as [|n IH]; intros s Hn.
    - destruct s; [apply trim_start_at_comma|simpl in Hn; lia].
    - destruct s as [|c rest]; [apply trim_start_at_comma|].
      simpl in Hn.
      change (String c rest +:+ String "," t) with (String c (rest +:+ String "," t)).
      cbn [trim_start]. destruct (is_space c); [apply IH; lia|].
      destruct rest as [|c2 rest2].
      + change ("" +:+ String "," t) with (String "," t). cbv beta iota.
        change (nat_of_ascii ",") with 44%nat. rewrite wide_space_comma.
        destruct t as [|c3 t']; [reflexivity|].
        by rewrite wider_space_comma_second.
      + simpl in Hn.
        change (String c2 rest2 +:+ String "," t) with (String c2 (rest2 +:+ String "," t)).
        cbv beta iota.
        destruct (wide_space (nat_of_ascii c) (nat_of_ascii c2)); [apply IH; lia|].
        destruct rest2 as [|c3 rest3].
        * change ("" +:+ String "," t) with (String "," t). cbv beta iota.
          change (nat_of_ascii ",") with 44%nat.
          by rewrite wider_space_comma_third.
        * simpl in Hn.
          change (String c3 rest3 +:+ String "," t)
            with (String c3 (rest3 +:+ String "," t)).
          cbv beta iota.
          destruct (wider_space _ _ _); [apply IH; lia|reflexivity]. }
  by apply (Hall (String.length s)).
Qed.

(** The part of [parseInt] behind the sign. *)
Lemma unsigned_comma (u t : string) (sign : Z) :
  (let '(radix, s3) :=
     match u +:+ String "," t with
     | String "0" (String "x" rest) => (16, rest)
     | String "0" (String "X" rest) => (16, rest)
     | _ => (10, u +:+ String "," t)
     end in
   match digits radix None s3 with
   | Some n => round_double (sign * n)
   | None => NaN
   end)
  = (let '(radix, s3) :=
       match u with
       | String "0" (String "x" rest) => (16, rest)
       | String "0" (String "X" rest) => (16, rest)
       | _ => (10, u)
       end in
     match digits radix None s3 with
     | Some n => round_double (sign * n)
     | None => NaN
     end).
Proof.
  assert (forall r acc rest, digits r acc (rest +:+ String "," t) = digits r acc rest)
    as Hd by (intros; apply digits_stop_at_comma).
  destruct u as [|a [|b u']].
  - reflexivity.
  - destruct a as [[] [] [] [] [] [] [] []]; reflexivity.
  - change (String a (String b u') +:+ String "," t)
      with (String a (String b (u' +:+ String "," t))).
    assert (forall r acc x y,
              digits r acc (String x (String y (u' +:+ String "," t)))
              = digits r acc (String x (String y u'))) as Hd2.
    { intros r acc x y. apply (Hd r acc (String x (String y u'))). }
    destruct a as [[] [] [] [] [] [] [] []];
      try (cbv beta iota; rewrite Hd2; reflexivity).
    destruct b as [[] [] [] [] [] [] [] []];
      cbv beta iota; rewrite ?Hd2, ?Hd; reflexivity.
Qed.

(** [parseInt] reads nothing behind a comma. *)
Lemma parseInt_comma (s t : string) : parseInt (s +:+ String "," t) = parseInt s.
Proof.
  unfold parseInt. rewrite trim_start_comma.
  destruct (trim_start s) as [|c s1]; [reflexivity|].
  change (String c s1 +:+ String "," t) with (String c (s1 +:+ String "," t)).
  pose proof (unsigned_comma s1 t) as Hsigned.
  pose proof (unsigned_comma (String c s1) t 1) as Hplain.
  change (String c s1 +:+ String "," t) with (String c (s1 +:+ String "," t)) in Hplain.
  destruct c as [[] [] [] [] [] [] [] []];
    first [exact Hplain | exact (Hsigned (-1)) | exact (Hsigned 1)].
Qed.

(** X16.  When the query string gives [page] or [pageSize] more than once,
    so that the value is an array, and the array can be converted to a
    string, the first value counts: the number is the one [parseInt] reads
    from the first string, or the default when that is [NaN] or zero. *)
Theorem repeated_parameter_first_value `{Collaborators} (rq : Request) (name : string)
    (d : Z) (s t : string) (more : list json) :
  query rq !! name = Some (JArr (JStr s :: more)) ->
  js_toString number_toString (JArr (JStr s :: more)) = Some t ->
  Index.query_int rq name d = Some (or_default (parseInt s) d).
Proof.
  intros Hq Hconv. unfold Index.query_int. rewrite Hq.
  change (js_toString_opt number_toString (Some (JArr (JStr s :: more))))
    with (js_toString number_toString (JArr (JStr s :: more))).
  rewrite Hconv. simpl. f_equal. f_equal.
  simpl in Hconv.
  match type of Hconv with
  | context [match ?e more with Some _ => _ | None => _ end] =>
      destruct (e more) as [[|x rest]|]; simpl in Hconv; try discriminate
  end.
  - by injection Hconv as <-.
  - injection Hconv as <-.
    change (s +:+ "," +:+ join "," (x :: rest)) with (s +:+ String "," (join "," (x :: rest))).
    apply parseInt_comma.
Qed.

Lemma repeated_parameter_witness :
  query (req Sample.page_twice) !! "page" = Some (JArr [JStr "2"; JStr "9"])
  /\ js_toString number_toString (JArr [JStr "2"; JStr "9"]) = Some "2,9"
  /\ Index.query_int (req Sample.page_twice) "page" 1 = Some (or_default (parseInt "2") 1).
Proof.
  split; [reflexivity|]. split; [reflexivity|].
  exact (repeated_parameter_first_value (req Sample.page_twice) "page" 1 "2" "2,9"
           [JStr "9"] eq_refl eq_refl).
Defined.

Lemma healthcheck_witness :
  healthcheck (Fulfilled false) (Sample.world [] (Sample.request [] []))
  = Done tt (after [Send 503 ""] (Sample.world [] (Sample.request [] []))).
Proof.
  exact (proj1 (proj1 (proj2 (healthcheck_answers (Fulfilled false)
                               (Sample.world [] (Sample.request [] []))))) eq_refl).
Defined.

Lemma cors_headers_witness :
  exists res',
    Cors.headers res' !! "Access-Control-Allow-Origin" = Some "*"
    /\ Cors.headers res' !! "X-Other" = Some "kept"
    /\ Cors.middleware 204 "GET" (fun r => r)
         {| Cors.headers := {[ "X-Other" := "kept" ]}; Cors.status := None |} = res'.
Proof.
  destruct (cors_headers_always_set 204 "GET" (fun r => r)
              {| Cors.headers := {[ "X-Other" := "kept" ]}; Cors.status := None |})
    as (res' & Horigin & _ & _ & Hothers & _ & [[Hopt _]|[_ Hrun]]); [discriminate|].
  exists res'. split; [exact Horigin|]. split; [|exact Hrun].
  rewrite Hothers by discriminate. reflexivity.
Defined.
